(* ===== verification/_CoqProject ===== *)
-Q . S2P
Prelude.v
Board.v
Minimax.v
Optimality.v
Game.v
Clicks.v
Display.v
