(* ===== verification/Prelude.v ===== *)
(** * Verification of the unbeatable tic-tac-toe program (src/project_mini.py)

    The program is one Python module built around a module-level 3x3 numpy
    array [board] (cells 0 = empty, 1 = the human's O, 2 = the AI's X):
    - board helpers (lines 35-97): [mark_square], [available_square],
      [is_board_full], [check_win];
    - the search engine (lines 100-145): [minimax(board, depth,
      is_maximizing)], an exhaustive game-tree search that mutates the
      shared array in place (write a mark, recurse, write 0 back), and
      [best_move()], which scores every empty cell with [minimax] and writes
      the AI's mark into the first cell of strictly greatest score;
    - the controller (lines 168-225): [reset_game] and the event loop of
      [main], whose locals [player], [game_over], [winner] decide whose
      turn it is; a human click is mapped to a cell and checked for a win
      or a draw, then the AI block calls [best_move] and checks again;
    - presentation (lines 10-33, 39-64, 148-170, 220-225): constants and
      colours, [draw_lines], [draw_figures], [show_winner], the display
      half of [reset_game], and the drawing at the end of each iteration
      of [main]; it reads the game state and writes only the display.
    The search reads and writes the same array the controller owns; the
    controller relies on the search to always return and to play a legal
    move that keeps the game value.

    Files, in dependency order (each opens with a note on its contents):
    - [Prelude] (this file): the store monad [St S A = S -> option (A * S)]
      for code that mutates a shared object, with [x <- m ;; k] in
      [st_scope]; the monadic loop [foldM] with its frame lemma; Python's
      scores [ext] ([-np.inf], ints, [np.inf]) with [max], [min], [>]
      ([py_max], [py_min], [ext_lt]); the loop lemmas [sel_loop] (the
      running max/min of [minimax]) and [argmax_first] (the first-maximum
      loop of [best_move]); logs that are only appended to ([out],
      [appends], with their laws as hints); generic list lemmas; the
      tactic [destruct_matches]; the hint databases [ttt].
    - [Board], Module [BoardModel]: the array as a record [board] of nine
      [Z] cells (numpy floats holding only 0, 1, 2), indices [idx] (the
      code only indexes with [range(3)] or with clicks, handled in [Game]),
      [get]/[set] for [board[r][c]], the four helpers, [read]/[write]/
      [for_cells] for the array inside the store monad.  Theorems: array
      laws, [mark_square] writes exactly its cell and the place-then-clear
      round trip, [check_win] against the
      eight lines, [is_board_full] against the empty cells, counting.
    - [Minimax], Module [Search]: [minimax_fuel] (the recursion of
      [minimax] on a fuel argument; [minimax] uses [MINIMAX_FUEL = 10]) and
      [best_move], both in the store monad; the abstract specification
      [value]/[game_value], the minimax value defined over the list of
      successor positions with no mutation and no infinities; the class
      [AIPlayer], the contract the controller's proofs use, with its
      instance for [best_move].  Theorems: refinement ([minimax] returns
      [Fin (game_value ..)] and restores the array), [best_move] plays a
      first maximal empty cell and reports [False] on a full board.
    - [Optimality], Module [Optimality]: what the score of [minimax]
      means in terms of play: [can_force v b m], the AI has a
      strategy reaching an outcome of at least [v] against every human
      reply ([terminal] and [outcome] are [minimax]'s terminal tests),
      and its mirror [can_hold v b m], the human can hold the AI to at
      most [v].  Theorem: the score [minimax] returns on [b] is at least
      [v] exactly when [can_force v b m] and at most [v] exactly when
      [can_hold v b m]: the program computes the value of optimal play.
    - [Game], Module [Controller]: [state] (array, [player], [game_over],
      [winner]), pygame [event]s, [handle_event] (one event), [ai_turn]
      (the AI block), [frame] (one iteration of [while True]),
      [reachable] (closure of frames from [main]'s start), [plays]
      (frames of one game) and [click_run] (frames of human clicks).
      Theorems: the AI never loses; a forced win is always converted;
      invariants of reachable states (mark counts, one winner at most,
      well-formed cells, [winner] agrees with [game_over] and with the
      array); every frame ends on the human's turn or game over; frames
      always have a result; every click on a free cell makes progress and
      a game ends within five clicks; R restarts.
    - [Clicks], Module [Clicks]: how a click position reaches numpy
      ([// SQUARE_SIZE], then [Controller.np_index]).  Theorems: inside
      the window no [IndexError], and the cell selected is the one whose
      square contains the point; occupied cells are ignored, free ones
      marked; outside the window [IndexError] exactly beyond one window
      height (above it negative rows wrap around).
    - [Display], Module [Presentation]: the display as the ordered log of
      the pygame calls made on it ([draw_call]: fill, line, circle, blit,
      update), appended to by [emit] (the logs of [Prelude]); the window
      and the set-up ([window], [setup]); [draw_lines], [draw_figures]
      (its loop body [draw_cell]), [show_winner] (text metrics are the
      Section variables [get_width], [get_height]), [reset_screen], and
      [frame_io]/[reachable_io], the frame and the run of [main] with
      their drawing ([frame_io] runs [Controller.frame] unchanged).
      Theorems: the display always shows the grid and exactly the
      current marks; it never shows "You Win!"; the message names the real
      outcome; one circle per O and two lines per X, each inside its cell
      so a click on a figure selects its cell; the grid lines are exactly
      where a click changes cell; R redraws the opening display; texts
      inside the window; overlays accumulate on a finished game.

    Fuel: [minimax_fuel n] fails only when [n] is not above the number of
    empty cells (each recursion level fills one cell); a board has at most
    9, so [MINIMAX_FUEL = 10] always suffices ([minimax_refines]) and the
    controller never sees a failure ([frame_has_result]).

    What modelling showed: [depth] is never read (the score [minimax]
    returns is [game_value], in which no depth occurs: [minimax_refines]),
    so the AI treats a win now and a forced win later alike and can pass up
    an immediate win (on the reachable array 1 1 2 / 0 2 0 / 0 1 0 it
    plays (1,0) rather than the winning (2,0)); [mark_square] has no guard,
    the check of an occupied cell is [available_square] in [main]; the
    terminal tests of [minimax] read the module-level array rather than
    its [board] parameter, which is correct only because every call passes
    that array (the model has the one shared store); while the game is
    over every frame blits another half-transparent overlay without
    clearing the display, so the grid fades to black
    ([overlay_accumulates]).

    Not modelled: [pygame.init()] (it draws nothing and no later call
    depends on its result); the pixels a call paints and alpha blending (a
    call is recorded with its arguments, the theorems bound the pixels by
    the call's geometry); the font engine's metrics, which stay
    parameters; the value of [depth] (threaded through [minimax] but never
    read); floating point beyond the three values stored and the two
    infinities, which the model represents exactly. *)

From Stdlib Require Import ZArith List Bool Lia Sorted.
Import ListNotations.

Create HintDb ttt discriminated.
Create Rewrite HintDb ttt.

(** Case analysis on every [match] and [if] of the goal, innermost
    scrutinee first. *)
Ltac destruct_matches :=
  repeat match goal with
         | |- context [match ?e with _ => _ end] =>
             lazymatch e with
             | context [match _ with _ => _ end] => fail
             | _ => destruct e
             end
         end.

(** ** A state-and-failure monad for code that mutates a shared store *)

Definition St (S A : Type) : Type := S -> option (A * S).

Definition ret {S A} (a : A) : St S A := fun s => Some (a, s).

Definition bind {S A B} (m : St S A) (k : A -> St S B) : St S B :=
  fun s => match m s with
           | Some (a, s') => k a s'
           | None => None
           end.

Definition gets {S A} (f : S -> A) : St S A := fun s => Some (f s, s).

Definition modify {S} (f : S -> S) : St S unit := fun s => Some (tt, f s).

(** Failure: only used for exhausted fuel, which the theorems exclude. *)
Definition fail {S A} : St S A := fun _ => None.

Declare Scope st_scope.
Delimit Scope st_scope with st.

Notation "x <- m ;; k" := (bind m (fun x => k))
  (at level 61, m at next level, right associativity) : st_scope.
Notation "' p <- m ;; k" := (bind m (fun x => match x with p => k end))
  (at level 61, p pattern, m at next level, right associativity) : st_scope.
Notation "m ;; k" := (bind m (fun _ => k))
  (at level 61, right associativity) : st_scope.

Open Scope st_scope.

(** A [for] loop whose body threads an accumulator through the store. *)
Fixpoint foldM {S A X} (f : A -> X -> St S A) (l : list X) (a : A) : St S A :=
  match l with
  | [] => ret a
  | x :: l' => a' <- f a x ;; foldM f l' a'
  end.

(** ** Logs that are only appended to

    A store that is a log (the calls made on the pygame display) is only
    ever extended.  [out m] is what [m] appends to an empty log; [m]
    [appends] when it never fails and appends [out m] to any log. *)

Definition out {T} (m : St (list T) unit) : list T :=
  match m [] with Some (_, l) => l | None => [] end.

Definition appends {T} (m : St (list T) unit) : Prop :=
  forall l, m l = Some (tt, l ++ out m).

(** ** Scores: Python ints together with the floats [-np.inf] and [np.inf] *)

Inductive ext : Type :=
| NegInf : ext
| Fin (z : Z) : ext
| PosInf : ext.

(** Python's [<] between the values [best_score] and [score] can take. *)
Definition ext_lt (x y : ext) : bool :=
  match x, y with
  | NegInf, NegInf => false
  | NegInf, _ => true
  | Fin a, Fin b => (a <? b)%Z
  | Fin _, PosInf => true
  | _, _ => false
  end.

(** Python's builtin [max(x, y)] keeps [x] unless [y > x]; [min(x, y)]
    keeps [x] unless [y < x]. *)
Definition py_max (x y : ext) : ext := if ext_lt x y then y else x.
Definition py_min (x y : ext) : ext := if ext_lt y x then y else x.

(** The maximising or minimising selection, on scores and on integers. *)
Definition ext_sel (is_max : bool) : ext -> ext -> ext :=
  if is_max then py_max else py_min.
Definition ext_init (is_max : bool) : ext := if is_max then NegInf else PosInf.
Definition zsel (is_max : bool) : Z -> Z -> Z := if is_max then Z.max else Z.min.

(** The best of a non-empty list of integers ([0] for the empty list,
    a case the theorems exclude). *)
Definition best_of (is_max : bool) (vs : list Z) : Z :=
  match vs with
  | [] => 0%Z
  | v :: vs' => fold_left (zsel is_max) vs' v
  end.

(** One step of the loop [best = init; for x in l: if p(x): best =
    sel(f(x), best)] of [minimax]. *)
Definition sel_step {X} (p : X -> bool) (f : X -> Z) (m : bool) (acc : ext) (x : X) : ext :=
  if p x then ext_sel m (Fin (f x)) acc else acc.

(** One step of the loop of [best_move]:
    [if p(x): if f(x) > best: best, move = f(x), x]. *)
Definition argmax_step {X} (p : X -> bool) (f : X -> Z) (acc : ext * option X) (x : X)
  : ext * option X :=
  if p x then
    if ext_lt (fst acc) (Fin (f x)) then (Fin (f x), Some x) else acc
  else acc.

(** The same step on a list already filtered by [p]. *)
Definition argmax_step' {X} (f : X -> Z) (acc : ext * option X) (x : X) : ext * option X :=
  if ext_lt (fst acc) (Fin (f x)) then (Fin (f x), Some x) else acc.

(** ** Lemmas on the monad and the loops *)

Lemma bind_gets {S A B} (f : S -> A) (k : A -> St S B) s :
  (x <- gets f ;; k x) s = k (f s) s.
Proof. reflexivity. Qed.

Lemma bind_ret {S A B} (a : A) (k : A -> St S B) s : (x <- ret a ;; k x) s = k a s.
Proof. reflexivity. Qed.

#[export] Hint Rewrite @bind_gets @bind_ret : ttt.

(** A loop whose body leaves the store as it found it computes the pure
    fold of the body's results. *)
Lemma foldM_frame {S A X} (f : A -> X -> St S A) (g : A -> X -> A)
      (l : list X) (s : S) :
  (forall a x, In x l -> f a x s = Some (g a x, s)) ->
  forall a, foldM f l a s = Some (fold_left g l a, s).
Proof.
  induction l as [|x l IH]; intros Hf a; [reflexivity|].
  cbn [foldM fold_left]. unfold bind.
  rewrite Hf by (left; reflexivity).
  apply IH. intros; apply Hf; right; assumption.
Qed.

(** A loop preserving a predicate on accumulator and store never fails
    when no step fails. *)
Lemma foldM_inv {S A X} (P : A -> S -> Prop) (f : A -> X -> St S A)
      (l : list X) :
  (forall a s x, In x l -> P a s ->
     exists a' s', f a x s = Some (a', s') /\ P a' s') ->
  forall a s, P a s -> exists a' s', foldM f l a s = Some (a', s') /\ P a' s'.
Proof.
  induction l as [|x l IH]; intros Hf a s Hp.
  - exists a, s; split; [reflexivity|assumption].
  - destruct (Hf a s x (or_introl eq_refl) Hp) as (a1 & s1 & E & Hp1).
    cbn [foldM]. unfold bind. rewrite E.
    apply IH; [intros; apply Hf; [right|]; assumption|assumption].
Qed.

(** Two nested loops are one loop over the pairs, in row-major order. *)
Lemma fold_left_nested {A X Y} (g : A -> X * Y -> A) (xs : list X)
      (ys : list Y) (a : A) :
  fold_left (fun a x => fold_left (fun a y => g a (x, y)) ys a) xs a
  = fold_left g (list_prod xs ys) a.
Proof.
  revert a; induction xs as [|x xs IH]; intros a; [reflexivity|].
  cbn [fold_left list_prod]. rewrite fold_left_app, <- IH. f_equal.
  clear IH. revert a; induction ys as [|y ys IHy]; intros a; cbn; auto.
Qed.

(** ** Append-only computations *)

Lemma ret_appends {T} : appends (T := T) (ret tt).
Proof. intros l; rewrite app_nil_r; reflexivity. Qed.

Lemma out_ret {T} : out (T := T) (ret tt) = [].
Proof. reflexivity. Qed.

Lemma modify_appends {T} (e : list T) : appends (modify (fun l => l ++ e)).
Proof. intros l; reflexivity. Qed.

Lemma out_modify {T} (e : list T) : out (modify (fun l => l ++ e)) = e.
Proof. reflexivity. Qed.

Lemma out_bind {T} (m : St (list T) unit) (k : unit -> St (list T) unit) :
  appends m -> appends (k tt) -> out (bind m k) = out m ++ out (k tt).
Proof. intros H1 H2; unfold out at 1, bind; rewrite H1, H2; reflexivity. Qed.

Lemma bind_appends {T} (m : St (list T) unit) (k : unit -> St (list T) unit) :
  appends m -> appends (k tt) -> appends (bind m k).
Proof.
  intros H1 H2 l; rewrite (out_bind m k H1 H2); unfold bind.
  rewrite H1, H2, app_assoc; reflexivity.
Qed.

Lemma foldM_appends {T X} (f : unit -> X -> St (list T) unit) (xs : list X) :
  (forall x, appends (f tt x)) -> appends (foldM f xs tt).
Proof.
  intros H; induction xs as [|x xs IH]; [apply ret_appends|].
  cbn [foldM]; exact (bind_appends _ _ (H x) IH).
Qed.

Lemma out_foldM {T X} (f : unit -> X -> St (list T) unit) (xs : list X) :
  (forall x, appends (f tt x)) -> out (foldM f xs tt) = flat_map (fun x => out (f tt x)) xs.
Proof.
  intros H; induction xs as [|x xs IH]; [reflexivity|].
  cbn [foldM flat_map].
  rewrite (out_bind (f tt x) (fun a => foldM f xs a) (H x) (foldM_appends f xs H)), IH.
  reflexivity.
Qed.

#[export] Hint Resolve ret_appends modify_appends bind_appends foldM_appends : ttt.
#[export] Hint Rewrite @out_ret @out_modify : ttt.

Lemma ext_sel_init m x : ext_sel m (Fin x) (ext_init m) = Fin x.
Proof. destruct m; reflexivity. Qed.

Lemma ext_sel_fin m x y : ext_sel m (Fin x) (Fin y) = Fin (zsel m y x).
Proof.
  destruct m; cbn; unfold py_max, py_min; cbn;
    [destruct (Z.ltb_spec x y)|destruct (Z.ltb_spec y x)]; f_equal; lia.
Qed.

#[export] Hint Rewrite ext_sel_init ext_sel_fin : ttt.

Lemma fold_zsel_bound (m : bool) (vs : list Z) (z : Z) :
  (if m then z <= fold_left (zsel m) vs z /\ Forall (fun v => v <= fold_left (zsel m) vs z) vs
   else fold_left (zsel m) vs z <= z /\ Forall (fun v => fold_left (zsel m) vs z <= v) vs)%Z.
Proof.
  revert z; induction vs as [|v vs IH]; intros z; cbn [fold_left].
  - destruct m; split; auto with zarith.
  - specialize (IH (zsel m z v)); destruct m; cbn in *;
      destruct IH as [IH1 IH2]; split; try constructor; auto; lia.
Qed.

Lemma fold_zsel_in m (vs : list Z) (z : Z) :
  fold_left (zsel m) vs z = z \/ In (fold_left (zsel m) vs z) vs.
Proof.
  revert z; induction vs as [|v vs IH]; intros z; cbn [fold_left]; [left; reflexivity|].
  destruct (IH (zsel m z v)) as [E|I]; [|right; right; exact I].
  rewrite E. destruct m; cbn; [destruct (Z.max_spec z v)|destruct (Z.min_spec z v)];
    destruct H as [_ ->]; auto.
Qed.

(** [best_of] returns an element of the list... *)
Lemma best_of_in m vs : vs <> [] -> In (best_of m vs) vs.
Proof.
  destruct vs as [|v vs]; [congruence|intros _; cbn].
  destruct (fold_zsel_in m vs v) as [->|I]; auto.
Qed.

(** ... which bounds every element: from above when maximising,
    from below when minimising. *)
Lemma best_of_max_ge vs v : In v vs -> (v <= best_of true vs)%Z.
Proof.
  destruct vs as [|w vs]; [contradiction|]; intros [<-|I]; cbn;
    destruct (fold_zsel_bound true vs w) as [B1 B2]; auto.
  rewrite Forall_forall in B2; auto.
Qed.

Lemma best_of_min_le vs v : In v vs -> (best_of false vs <= v)%Z.
Proof.
  destruct vs as [|w vs]; [contradiction|]; intros [<-|I]; cbn;
    destruct (fold_zsel_bound false vs w) as [B1 B2]; auto.
  rewrite Forall_forall in B2; auto.
Qed.

#[export] Hint Resolve best_of_in best_of_max_ge best_of_min_le : ttt.

(** A maximum is at least [v] when some element is; a minimum is at
    least [v] when every element is. *)
Lemma best_of_max_ge_iff vs v :
  vs <> [] -> ((v <= best_of true vs)%Z <-> exists w, In w vs /\ (v <= w)%Z).
Proof.
  intros NE; split.
  - intros H; exists (best_of true vs); split; [apply best_of_in, NE|exact H].
  - intros (w & I & H); pose proof (best_of_max_ge vs w I); lia.
Qed.

Lemma best_of_min_ge_iff vs v :
  vs <> [] -> ((v <= best_of false vs)%Z <-> forall w, In w vs -> (v <= w)%Z).
Proof.
  intros NE; split.
  - intros H w I; pose proof (best_of_min_le vs w I); lia.
  - intros H; apply H, best_of_in, NE.
Qed.

Lemma best_of_max_le_iff vs v :
  vs <> [] -> ((best_of true vs <= v)%Z <-> forall w, In w vs -> (w <= v)%Z).
Proof.
  intros NE; split.
  - intros H w I; pose proof (best_of_max_ge vs w I); lia.
  - intros H; apply H, best_of_in, NE.
Qed.

Lemma best_of_min_le_iff vs v :
  vs <> [] -> ((best_of false vs <= v)%Z <-> exists w, In w vs /\ (w <= v)%Z).
Proof.
  intros NE; split.
  - intros H; exists (best_of false vs); split; [apply best_of_in, NE|exact H].
  - intros (w & I & H); pose proof (best_of_min_le vs w I); lia.
Qed.

(** The Python loop [best = init; for x in l: if p(x): best = sel(f(x), best)]
    yields [-inf]/[inf] when no element passes the test and otherwise the
    best of the values of the elements that do. *)
Section SelectLoop.
Context {X : Type} (p : X -> bool) (f : X -> Z) (m : bool).

Lemma sel_loop_fin (l : list X) (z : Z) :
  fold_left (sel_step p f m) l (Fin z) = Fin (fold_left (zsel m) (map f (filter p l)) z).
Proof.
  revert z; induction l as [|x l IH]; intros z; [reflexivity|].
  cbn [fold_left filter]. unfold sel_step at 2.
  destruct (p x); [rewrite ext_sel_fin|]; apply IH.
Qed.

Lemma sel_loop (l : list X) :
  fold_left (sel_step p f m) l (ext_init m)
  = match map f (filter p l) with
    | [] => ext_init m
    | vs => Fin (best_of m vs)
    end.
Proof.
  induction l as [|x l IH]; [reflexivity|].
  cbn [fold_left filter]. unfold sel_step at 2.
  destruct (p x); [|exact IH].
  rewrite ext_sel_init, sel_loop_fin. reflexivity.
Qed.
End SelectLoop.

(** ** Generic list facts *)

(** Counting the elements that pass a test, as a sum of 0/1 terms. *)
Lemma length_filter_sum {X} (p : X -> bool) (l : list X) :
  length (filter p l) = list_sum (map (fun x => if p x then 1 else 0)%nat l).
Proof. induction l as [|x l IH]; [reflexivity|cbn; destruct (p x); cbn; rewrite IH; reflexivity]. Qed.

Lemma length_filter_flat_map {X Y} (q : Y -> bool) (f : X -> list Y) (p : X -> bool) k l :
  (forall x, length (filter q (f x)) = if p x then k else 0%nat) ->
  length (filter q (flat_map f l)) = (k * length (filter p l))%nat.
Proof.
  intros H; induction l as [|x l IH]; cbn; [lia|].
  rewrite filter_app, length_app, IH, H; destruct (p x); cbn; lia.
Qed.

(** A list whose elements each pass exactly one of two tests. *)
Lemma length_filter_partition {X} (p q : X -> bool) (l : list X) :
  (forall x, In x l -> p x = negb (q x)) ->
  length l = (length (filter p l) + length (filter q l))%nat.
Proof.
  induction l as [|x l IH]; intros H; [reflexivity|cbn].
  rewrite (H x (or_introl eq_refl)), IH by (intros y Hy; apply H; right; exact Hy).
  destruct (q x); cbn; lia.
Qed.

Lemma nil_iff_no_elem {X} (l : list X) : l = [] <-> forall x, ~ In x l.
Proof.
  split; [intros ->; auto|destruct l as [|x l]; [reflexivity|]].
  intros H; exfalso; apply (H x); left; reflexivity.
Qed.

Lemma best_of_max_eq vs v :
  In v vs -> (forall w, In w vs -> (w <= v)%Z) -> best_of true vs = v.
Proof.
  intros I H; pose proof (best_of_max_ge vs v I).
  assert (vs <> []) by (destruct vs; [contradiction|discriminate]).
  pose proof (H _ (best_of_in true vs ltac:(assumption))); lia.
Qed.

(** The Python loop
    [best = -inf; move = None; for x in l: if p(x): if f(x) > best: best, move = f(x), x]
    keeps the first element of maximal value among those passing the test. *)
Section ArgmaxLoop.
Context {X : Type} (p : X -> bool) (f : X -> Z).

Lemma argmax_filter l acc :
  fold_left (argmax_step p f) l acc = fold_left (argmax_step' f) (filter p l) acc.
Proof.
  revert acc; induction l as [|x l IH]; intros acc; [reflexivity|].
  cbn [fold_left filter]; unfold argmax_step at 2; destruct (p x); apply IH.
Qed.

Lemma argmax_nil l : filter p l = [] -> fold_left (argmax_step p f) l (NegInf, None) = (NegInf, None).
Proof. intros E; rewrite argmax_filter, E; reflexivity. Qed.

(** The result splits the candidates into a prefix of strictly smaller
    values, the chosen element, and a suffix of values not larger. *)
Lemma argmax_first (L : list X) :
  L <> [] ->
  exists l1 x l2, L = l1 ++ x :: l2
    /\ fold_left (argmax_step' f) L (NegInf, None) = (Fin (f x), Some x)
    /\ Forall (fun y => f y < f x)%Z l1
    /\ Forall (fun y => f y <= f x)%Z l2.
Proof.
  induction L as [|y L IH] using rev_ind; [congruence|intros _].
  rewrite fold_left_app; cbn [fold_left].
  destruct L as [|z L'] eqn:EL.
  - exists [], y, []; repeat split; constructor.
  - rewrite <- EL in *; destruct IH as (l1 & x & l2 & -> & R & H1 & H2);
      [subst; discriminate|].
    rewrite R; unfold argmax_step'; cbn [fst ext_lt].
    destruct (Z.ltb_spec (f x) (f y)) as [Lt|Ge].
    + exists (l1 ++ x :: l2), y, []; split; [reflexivity|]; split; [reflexivity|].
      split; [|constructor].
      apply Forall_app; split; [|constructor; [lia|]];
        (eapply Forall_impl; [|eassumption]); cbn; intros; lia.
    + exists l1, x, (l2 ++ [y]); rewrite <- app_assoc; split; [reflexivity|].
      split; [reflexivity|]; split; [assumption|].
      apply Forall_app; split; [assumption|constructor; [lia|constructor]].
Qed.
End ArgmaxLoop.

Lemma StronglySorted_filter {X} (R : X -> X -> Prop) (p : X -> bool) l :
  StronglySorted R l -> StronglySorted R (filter p l).
Proof.
  induction 1 as [|x l _ IH H]; cbn; [constructor|].
  destruct (p x); [|exact IH]; constructor; [exact IH|].
  rewrite Forall_forall in *; intros y (Hy & _)%filter_In; auto.
Qed.

Lemma StronglySorted_after {X} (R : X -> X -> Prop) l1 x l2 :
  StronglySorted R (l1 ++ x :: l2) -> Forall (R x) l2.
Proof.
  induction l1 as [|y l1 IH]; cbn; intros H; apply StronglySorted_inv in H as [H1 H2];
    [exact H2|exact (IH H1)].
Qed.
