(* ===== verification/Board.v ===== *)
(** * The board: the numpy array [board] of src/project_mini.py

    The program keeps one module-level [board = np.zeros((3, 3))] whose cells
    hold [0] (empty), [1] (the human's O) or [2] (the AI's X).  It is modelled
    as a record of nine integer cells; indices, which the code always takes
    from [range(3)] or from a click position, are the type [idx].  The
    helpers that only read the array take it as an explicit argument; the
    ones that write it are lifted to the store monad [St board] of
    [Prelude] by [read] and [write].  Theorems: the laws of [get]/[set]
    (the place-then-clear round trip), [check_win] against the eight lines,
    [check_win] unaffected by other marks, [is_board_full] against the
    empty cells, and how [set] changes the counts of marks. *)

From Stdlib Require Import ZArith List Bool Lia Sorted Classes.EquivDec.
From S2P Require Import Prelude.
Import ListNotations.
Open Scope st_scope.

Module BoardModel.

(** A valid index [0], [1] or [2] of an axis of length [BOARD_ROWS = 3]. *)
Inductive idx : Type := I0 | I1 | I2.

Definition idx_Z (i : idx) : Z :=
  match i with I0 => 0 | I1 => 1 | I2 => 2 end%Z.

Definition idx_eq_dec (i j : idx) : {i = j} + {i <> j}.
Proof. decide equality. Defined.

Definition cell_eq_dec (p q : idx * idx) : {p = q} + {p <> q}.
Proof. decide equality; apply idx_eq_dec. Defined.

(** Indices and cells compare with [==]. *)
#[export] Instance idx_EqDec : EqDec idx eq := idx_eq_dec.
#[export] Instance cell_EqDec : EqDec (idx * idx) eq := cell_eq_dec.

Definition BOARD_ROWS : Z := 3.
Definition BOARD_COLS : Z := 3.

(** [range(BOARD_ROWS)] and [range(BOARD_COLS)]. *)
Definition range3 : list idx := [I0; I1; I2].

(** [board = np.zeros((BOARD_ROWS, BOARD_COLS))], row-major. *)
Record board : Type := mkBoard {
  b00 : Z; b01 : Z; b02 : Z;
  b10 : Z; b11 : Z; b12 : Z;
  b20 : Z; b21 : Z; b22 : Z }.

Definition zeros : board := mkBoard 0 0 0 0 0 0 0 0 0.

(** [board[row][col]] *)
Definition get (b : board) (row col : idx) : Z :=
  match row, col with
  | I0, I0 => b00 b | I0, I1 => b01 b | I0, I2 => b02 b
  | I1, I0 => b10 b | I1, I1 => b11 b | I1, I2 => b12 b
  | I2, I0 => b20 b | I2, I1 => b21 b | I2, I2 => b22 b
  end.

(** [board[row][col] = v] *)
Definition set (b : board) (row col : idx) (v : Z) : board :=
  let (x00, x01, x02, x10, x11, x12, x20, x21, x22) := b in
  match row, col with
  | I0, I0 => mkBoard v x01 x02 x10 x11 x12 x20 x21 x22
  | I0, I1 => mkBoard x00 v x02 x10 x11 x12 x20 x21 x22
  | I0, I2 => mkBoard x00 x01 v x10 x11 x12 x20 x21 x22
  | I1, I0 => mkBoard x00 x01 x02 v x11 x12 x20 x21 x22
  | I1, I1 => mkBoard x00 x01 x02 x10 v x12 x20 x21 x22
  | I1, I2 => mkBoard x00 x01 x02 x10 x11 v x20 x21 x22
  | I2, I0 => mkBoard x00 x01 x02 x10 x11 x12 v x21 x22
  | I2, I1 => mkBoard x00 x01 x02 x10 x11 x12 x20 v x22
  | I2, I2 => mkBoard x00 x01 x02 x10 x11 x12 x20 x21 v
  end.

(** [mark_square(row, col, player)]: no check that the cell is free. *)
Definition mark_square (b : board) (row col : idx) (player : Z) : board :=
  set b row col player.

(** [available_square(row, col)] *)
Definition available_square (b : board) (row col : idx) : bool :=
  (get b row col =? 0)%Z.

(** [is_board_full()]: the nested loop returns [False] at the first empty
    cell and [True] after the loops. *)
Definition is_board_full (b : board) : bool :=
  forallb (fun row => forallb (fun col => negb (get b row col =? 0)%Z) range3) range3.

(** [check_win(player)]: the three columns, the three rows, the main
    diagonal and the anti-diagonal, tested in this order. *)
Definition check_win (b : board) (player : Z) : bool :=
  existsb (fun col => (get b I0 col =? player) && (get b I1 col =? player)
                      && (get b I2 col =? player))%Z range3
  || existsb (fun row => (get b row I0 =? player) && (get b row I1 =? player)
                         && (get b row I2 =? player))%Z range3
  || ((get b I0 I0 =? player) && (get b I1 I1 =? player) && (get b I2 I2 =? player))%Z
  || ((get b I0 I2 =? player) && (get b I1 I1 =? player) && (get b I2 I0 =? player))%Z.

(** Reading and writing the shared array from code that runs in the store
    monad: [board[row][col]] and [board[row][col] = v]. *)
Definition read (row col : idx) : St board Z := gets (fun b => get b row col).
Definition write (row col : idx) (v : Z) : St board unit :=
  modify (fun b => set b row col v).

(** [for row in range(BOARD_ROWS): for col in range(BOARD_COLS): body] with
    an accumulator threaded through the iterations. *)
Definition for_cells {A} (body : A -> idx -> idx -> St board A) (init : A)
  : St board A :=
  foldM (fun a row => foldM (fun a col => body a row col) range3 a) range3 init.

(** ** Derived notions used by the specifications *)

(** The cells in the order the nested loops visit them. *)
Definition all_cells : list (idx * idx) := list_prod range3 range3.

Definition empty_cells (b : board) : list (idx * idx) :=
  filter (fun rc => get b (fst rc) (snd rc) =? 0)%Z all_cells.

Definition count_mark (b : board) (v : Z) : nat :=
  length (filter (fun rc => get b (fst rc) (snd rc) =? v)%Z all_cells).

Definition count_empty (b : board) : nat := count_mark b 0.

(** The position of a cell in the row-major visiting order. *)
Definition cell_index (row col : idx) : Z := 3 * idx_Z row + idx_Z col.

(** The eight winning lines. *)
Definition lines : list (list (idx * idx)) :=
  [ [(I0,I0);(I1,I0);(I2,I0)]; [(I0,I1);(I1,I1);(I2,I1)]; [(I0,I2);(I1,I2);(I2,I2)];
    [(I0,I0);(I0,I1);(I0,I2)]; [(I1,I0);(I1,I1);(I1,I2)]; [(I2,I0);(I2,I1);(I2,I2)];
    [(I0,I0);(I1,I1);(I2,I2)]; [(I0,I2);(I1,I1);(I2,I0)] ].

(** Every cell holds one of the three values the program writes. *)
Definition wf_board (b : board) : Prop :=
  forall r c, get b r c = 0%Z \/ get b r c = 1%Z \/ get b r c = 2%Z.

(** ** Laws of the array *)

Ltac destruct_cells :=
  repeat match goal with
         | r : idx |- _ => destruct r
         | b : board |- _ => destruct b
         end.

Lemma in_range3 (i : idx) : In i range3.
Proof. destruct i; cbn; tauto. Qed.

Lemma in_all_cells (r c : idx) : In (r, c) all_cells.
Proof. unfold all_cells; apply in_prod; apply in_range3. Qed.

#[export] Hint Resolve in_range3 in_all_cells : ttt.

Lemma get_set_eq b r c v : get (set b r c v) r c = v.
Proof. destruct_cells; reflexivity. Qed.

Lemma get_set_neq b r c r' c' v :
  (r, c) <> (r', c') -> get (set b r c v) r' c' = get b r' c'.
Proof. destruct_cells; cbn; congruence. Qed.

Lemma set_set b r c v w : set (set b r c v) r c w = set b r c w.
Proof. destruct_cells; reflexivity. Qed.

Lemma set_get b r c : set b r c (get b r c) = b.
Proof. destruct_cells; reflexivity. Qed.

(** Writing [0] back into a cell that was empty restores the array. *)
Lemma set_restore b r c v : get b r c = 0%Z -> set (set b r c v) r c 0 = b.
Proof. intros H; rewrite set_set, <- H; apply set_get. Qed.

#[export] Hint Rewrite get_set_eq set_set : ttt.

(** C17: [mark_square] writes exactly the cell it is given: the cell holds
    the new mark and the eight others are unchanged; and marking an empty
    cell and then writing [0] back (what [minimax] and [best_move] do
    around each recursive call) gives back the original array. *)
Theorem place_clear_roundtrip b r c player :
  get b r c = 0%Z ->
  get (mark_square b r c player) r c = player
  /\ (forall r' c', (r', c') <> (r, c) -> get (mark_square b r c player) r' c' = get b r' c')
  /\ mark_square (mark_square b r c player) r c 0 = b.
Proof.
  intros E; unfold mark_square; split; [apply get_set_eq|split].
  - intros r' c' N; apply get_set_neq; intros H; apply N; symmetry; exact H.
  - apply set_restore, E.
Qed.

Lemma place_clear_roundtrip_witness :
  get (mkBoard 1 0 0 0 2 0 0 0 0) I2 I1 = 0%Z
  /\ get (mark_square (mkBoard 1 0 0 0 2 0 0 0 0) I2 I1 2) I2 I1 = 2%Z
  /\ (forall r' c', (r', c') <> (I2, I1) ->
        get (mark_square (mkBoard 1 0 0 0 2 0 0 0 0) I2 I1 2) r' c' = get (mkBoard 1 0 0 0 2 0 0 0 0) r' c')
  /\ mark_square (mark_square (mkBoard 1 0 0 0 2 0 0 0 0) I2 I1 2) I2 I1 0 = mkBoard 1 0 0 0 2 0 0 0 0.
Proof. split; [reflexivity|apply place_clear_roundtrip; reflexivity]. Defined.

Lemma in_empty_cells b r c : In (r, c) (empty_cells b) <-> get b r c = 0%Z.
Proof.
  unfold empty_cells; rewrite filter_In; cbn [fst snd]; rewrite Z.eqb_eq.
  split; [tauto|split; auto with ttt].
Qed.

(** A loop over the cells whose body leaves the array unchanged computes
    the pure fold of its body over [all_cells]. *)
Lemma for_cells_frame {A} (body : A -> idx -> idx -> St board A)
      (g : A -> idx * idx -> A) (s : board) :
  (forall a r c, body a r c s = Some (g a (r, c), s)) ->
  forall a, for_cells body a s = Some (fold_left g all_cells a, s).
Proof.
  intros H a; unfold for_cells, all_cells.
  rewrite (foldM_frame _ (fun a row => fold_left (fun a col => g a (row, col)) range3 a)).
  - rewrite fold_left_nested; reflexivity.
  - intros a' row _; apply foldM_frame; intros; apply H.
Qed.

(** The probe of the search: write [v] into an empty cell, run [rec], write
    [0] back.  When [rec] leaves the array as it found it, so does the
    probe. *)
Lemma probe_restores {A X} (rec : St board X) (k : X -> A) v r c b x :
  get b r c = 0%Z -> rec (set b r c v) = Some (x, set b r c v) ->
  (write r c v ;; score <- rec ;; write r c 0 ;; ret (k score)) b = Some (k x, b).
Proof.
  intros H0 Hr; unfold bind, write, modify, ret; rewrite Hr, set_restore by exact H0.
  reflexivity.
Qed.

(** The loops visit the cells in increasing [cell_index], and so does any
    sub-list such as [empty_cells]. *)
Lemma empty_cells_sorted b :
  StronglySorted (fun x y => cell_index (fst x) (snd x) < cell_index (fst y) (snd y))%Z
                 (empty_cells b).
Proof.
  apply StronglySorted_filter.
  repeat constructor; cbn; lia.
Qed.

Lemma wf_set b r c v :
  wf_board b -> (v = 0 \/ v = 1 \/ v = 2)%Z -> wf_board (set b r c v).
Proof.
  intros Hb Hv r' c'; destruct (cell_eq_dec (r, c) (r', c')) as [E|E].
  - injection E as <- <-; rewrite get_set_eq; exact Hv.
  - rewrite get_set_neq by exact E; apply Hb.
Qed.

(** ** Win detection *)

(** The column, row and diagonal tests of [check_win] are the test of the
    eight lines in turn. *)
Lemma check_win_lines b player :
  check_win b player
  = existsb (fun l => forallb (fun rc => get b (fst rc) (snd rc) =? player)%Z l) lines.
Proof.
  destruct b; unfold check_win; cbn.
  repeat match goal with |- context [(?x =? player)%Z] => destruct (x =? player)%Z end;
    reflexivity.
Qed.

(** C18: [check_win] holds exactly when one of the eight lines holds
    [player] in all three of its cells. *)
Theorem check_win_iff b player :
  check_win b player = true <->
  exists l, In l lines /\ forall rc, In rc l -> get b (fst rc) (snd rc) = player.
Proof.
  rewrite check_win_lines, existsb_exists.
  split; intros [l [Hl Hf]]; exists l; split; auto;
    [intros rc Hrc; apply Z.eqb_eq; rewrite forallb_forall in Hf; auto
    |rewrite forallb_forall; intros rc Hrc; apply Z.eqb_eq; auto].
Qed.

Lemma check_win_mono b b' player :
  (forall r c, get b' r c = player -> get b r c = player) ->
  check_win b' player = true -> check_win b player = true.
Proof.
  rewrite !check_win_lines, !existsb_exists; intros Hm [l [Hl Hf]].
  exists l; split; [exact Hl|].
  rewrite forallb_forall in *; intros rc Hrc; apply Z.eqb_eq, Hm, Z.eqb_eq, Hf, Hrc.
Qed.

(** Writing a value other than [player] into a cell never creates a
    win for [player]: a win after the write was already there before. *)
Lemma check_win_set_other b r c v player :
  v <> player -> check_win (set b r c v) player = true -> check_win b player = true.
Proof.
  intros Hv; apply check_win_mono; intros r' c'.
  destruct (cell_eq_dec (r, c) (r', c')) as [E|E].
  - injection E as <- <-; rewrite get_set_eq; congruence.
  - rewrite get_set_neq by exact E; auto.
Qed.

(** ** Fullness and counting *)

Lemma is_board_full_iff b :
  is_board_full b = true <-> forall r c, get b r c <> 0%Z.
Proof.
  unfold is_board_full; rewrite forallb_forall.
  setoid_rewrite forallb_forall; setoid_rewrite negb_true_iff;
    setoid_rewrite Z.eqb_neq.
  split; intros H r c; [apply H; apply in_range3|intros; apply H].
Qed.

(** C19: [is_board_full] holds exactly when no cell is empty, that is when
    the list of empty cells the search iterates over is empty. *)
Theorem is_board_full_spec b :
  is_board_full b = true <-> empty_cells b = [].
Proof.
  unfold is_board_full, empty_cells.
  rewrite forallb_forall; setoid_rewrite forallb_forall.
  split; intros H.
  - apply nil_iff_no_elem; intros [r c]; rewrite filter_In; cbn [fst snd].
    intros [_ E]; apply Z.eqb_eq in E.
    specialize (H r (in_range3 r) c (in_range3 c)); rewrite E in H; discriminate.
  - intros r _ c _; apply negb_true_iff, Z.eqb_neq; intros E.
    assert (I : In (r, c) (filter (fun rc => get b (fst rc) (snd rc) =? 0)%Z all_cells))
      by (apply filter_In; split; [apply in_all_cells|apply Z.eqb_eq, E]).
    rewrite H in I; contradiction.
Qed.

Lemma empty_cells_nil_iff b : empty_cells b = [] <-> is_board_full b = true.
Proof.
  rewrite is_board_full_iff, nil_iff_no_elem.
  split; intros H.
  - intros r c E; apply (H (r, c)); rewrite in_empty_cells; exact E.
  - intros [r c]; rewrite in_empty_cells; apply H.
Qed.

(** Writing [v] into a cell that held [u] changes the number of cells
    holding [w] by one in each direction: [+1] if [v = w], [-1] if
    [u = w]. *)
Lemma count_mark_set b r c u v w :
  get b r c = u ->
  (count_mark (set b r c v) w + (if (u =? w)%Z then 1 else 0)
   = count_mark b w + (if (v =? w)%Z then 1 else 0))%nat.
Proof.
  unfold count_mark; rewrite !length_filter_sum.
  destruct_cells; cbn; intros <-; lia.
Qed.

Lemma count_empty_set b r c v :
  get b r c = 0%Z -> v <> 0%Z -> S (count_empty (set b r c v)) = count_empty b.
Proof.
  unfold count_empty, count_mark; rewrite !length_filter_sum.
  destruct_cells; cbn; intros -> Hv; cbn; apply Z.eqb_neq in Hv; rewrite Hv; lia.
Qed.

Lemma count_empty_le b : (count_empty b <= 9)%nat.
Proof.
  unfold count_empty, count_mark.
  change 9%nat with (length all_cells). apply filter_length_le.
Qed.

End BoardModel.
