(* ===== verification/Minimax.v ===== *)
(** * The search engine: [minimax] and [best_move] of src/project_mini.py

    [minimax(board, depth, is_maximizing)] (lines 100-127) and [best_move()]
    (lines 130-145) are written in the store monad [St board]: the store is
    the one numpy array that the code mutates in place (the parameter
    [board] of [minimax] is always that module-level array, and the calls
    to [check_win] and [is_board_full] inside it read the same array).
    [minimax] is a [Fixpoint] on a fuel argument standing for the recursion
    depth; [minimax] proper uses fuel 10.  The abstract specification is
    [value], the minimax value of a position defined over the list of its
    successor positions, without mutation and without infinities. *)

From Stdlib Require Import ZArith List Bool Lia Sorted.
From S2P Require Import Prelude Board.
Import ListNotations BoardModel.
Open Scope st_scope.

Module Search.

(** [minimax(board, depth, is_maximizing)], with the recursion bounded by
    [fuel]; [None] only when the fuel runs out, which [minimax_refines]
    excludes for [minimax]. *)
Fixpoint minimax_fuel (fuel : nat) (depth : nat) (is_maximizing : bool)
  : St board ext :=
  match fuel with
  | O => fail
  | S fuel' =>
    ai_won <- gets (fun b => check_win b 2) ;;
    if ai_won then ret (Fin 1) else
    human_won <- gets (fun b => check_win b 1) ;;
    if human_won then ret (Fin (-1)) else
    full <- gets is_board_full ;;
    if full then ret (Fin 0) else
    if is_maximizing then
      for_cells (fun best_score row col =>
        cell <- read row col ;;
        if (cell =? 0)%Z then
          write row col 2 ;;
          score <- minimax_fuel fuel' (S depth) false ;;
          write row col 0 ;;
          ret (py_max score best_score)
        else ret best_score) NegInf
    else
      for_cells (fun best_score row col =>
        cell <- read row col ;;
        if (cell =? 0)%Z then
          write row col 1 ;;
          score <- minimax_fuel fuel' (S depth) true ;;
          write row col 0 ;;
          ret (py_min score best_score)
        else ret best_score) PosInf
  end.

(** One more than the number of cells, the deepest recursion possible. *)
Definition MINIMAX_FUEL : nat := 10.

Definition minimax (depth : nat) (is_maximizing : bool) : St board ext :=
  minimax_fuel MINIMAX_FUEL depth is_maximizing.

(** [best_move()]: [move = (-1, -1)] is [None]. *)
Definition best_move : St board bool :=
  '(best_score, move) <-
    for_cells (fun '(best_score, move) row col =>
      cell <- read row col ;;
      if (cell =? 0)%Z then
        write row col 2 ;;
        score <- minimax 0 false ;;
        write row col 0 ;;
        ret (if ext_lt best_score score then (score, Some (row, col))
             else (best_score, move))
      else ret (best_score, move)) (NegInf, None) ;;
  match move with
  | Some (row, col) => modify (fun b => mark_square b row col 2) ;; ret true
  | None => ret false
  end.

(** ** The abstract specification: the game value of a position *)

(** The mark of the side to move. *)
Definition mover (is_maximizing : bool) : Z := if is_maximizing then 2%Z else 1%Z.

(** The positions reachable in one move, in row-major order. *)
Definition children (b : board) (is_maximizing : bool) : list board :=
  map (fun rc => set b (fst rc) (snd rc) (mover is_maximizing)) (empty_cells b).

(** The minimax value of a position with fuel [n]: [1] if the AI has a
    line, [-1] if the human has one, [0] on a full board, else the best
    value of the successor positions for the side to move. *)
Fixpoint value (n : nat) (b : board) (is_maximizing : bool) : Z :=
  match n with
  | O => 0%Z
  | S n' =>
    if check_win b 2 then 1%Z
    else if check_win b 1 then (-1)%Z
    else if is_board_full b then 0%Z
    else best_of is_maximizing
           (map (fun b' => value n' b' (negb is_maximizing)) (children b is_maximizing))
  end.

(** The game value with enough fuel for every board. *)
Definition game_value (b : board) (is_maximizing : bool) : Z :=
  value MINIMAX_FUEL b is_maximizing.

(** The value for the AI of playing cell [rc]: the game value of the
    resulting position with the human to move. *)
Definition ai_child_value (b : board) (rc : idx * idx) : Z :=
  game_value (set b (fst rc) (snd rc) 2) false.

(** The test of [best_move]'s loop: [board[row][col] == 0]. *)
Definition is_empty_cell (b : board) (rc : idx * idx) : bool :=
  (get b (fst rc) (snd rc) =? 0)%Z.

(** The contract the controller's proofs rely on: the AI's move procedure
    always returns, and on a position where nobody has won and a cell is
    free it writes the AI's mark into an empty cell without lowering the
    game value. *)
Class AIPlayer (choose : St board bool) : Prop := {
  ai_total : forall b, exists moved b', choose b = Some (moved, b');
  ai_keeps_value : forall b,
    check_win b 2 = false -> check_win b 1 = false -> is_board_full b = false ->
    exists r c, choose b = Some (true, set b r c 2) /\ get b r c = 0%Z
      /\ game_value (set b r c 2) false = game_value b true
}.

(** ** Facts on the game value *)

Lemma mover_nonzero m : mover m <> 0%Z.
Proof. destruct m; discriminate. Qed.

Lemma in_children b m b' :
  In b' (children b m) <->
  exists r c, get b r c = 0%Z /\ b' = set b r c (mover m).
Proof.
  unfold children; rewrite in_map_iff; split.
  - intros [[r c] [<- H]]; apply in_empty_cells in H; eauto.
  - intros (r & c & H & ->); exists (r, c); split; [reflexivity|apply in_empty_cells, H].
Qed.

Lemma children_count b m b' :
  In b' (children b m) -> S (count_empty b') = count_empty b.
Proof.
  intros (r & c & H & ->)%in_children; apply count_empty_set; [exact H|apply mover_nonzero].
Qed.

Lemma value_S n b m :
  value (S n) b m =
  if check_win b 2 then 1%Z
  else if check_win b 1 then (-1)%Z
  else if is_board_full b then 0%Z
  else best_of m (map (fun b' => value n b' (negb m)) (children b m)).
Proof. reflexivity. Qed.

Lemma value_fuel_stable n n' b m :
  (count_empty b < n)%nat -> (count_empty b < n')%nat -> value n b m = value n' b m.
Proof.
  revert n' b m; induction n as [|n IH]; intros n' b m H H'; [lia|].
  destruct n' as [|n']; [lia|]; rewrite !value_S.
  destruct (check_win b 2); [reflexivity|]; destruct (check_win b 1); [reflexivity|].
  destruct (is_board_full b); [reflexivity|].
  apply (f_equal (best_of m)), map_ext_in; intros b' Hb'%children_count; apply IH; lia.
Qed.

Lemma game_value_unfold b m :
  game_value b m =
  if check_win b 2 then 1%Z
  else if check_win b 1 then (-1)%Z
  else if is_board_full b then 0%Z
  else best_of m (map (fun b' => game_value b' (negb m)) (children b m)).
Proof.
  unfold game_value; change MINIMAX_FUEL with (S 9) at 1; rewrite value_S.
  destruct (check_win b 2); [reflexivity|]; destruct (check_win b 1); [reflexivity|].
  destruct (is_board_full b); [reflexivity|].
  apply (f_equal (best_of m)), map_ext_in; intros b' Hb'%children_count.
  pose proof (count_empty_le b); apply value_fuel_stable; unfold MINIMAX_FUEL; lia.
Qed.

(** ** The code computes the game value *)

(** The loop of one branch of [minimax], when each probe returns the value
    of its child and restores the array, returns the best child value. *)
Lemma minimax_loop fuel b m (body : ext -> idx -> idx -> St board ext) :
  is_board_full b = false ->
  (forall a r c, body a r c b =
     Some (sel_step (fun rc => get b (fst rc) (snd rc) =? 0)%Z
             (fun rc => value fuel (set b (fst rc) (snd rc) (mover m)) (negb m)) m a (r, c), b)) ->
  for_cells body (ext_init m) b
  = Some (Fin (best_of m (map (fun b' => value fuel b' (negb m)) (children b m))), b).
Proof.
  intros Hfull Hbody; rewrite (for_cells_frame _ _ _ Hbody), sel_loop.
  fold (empty_cells b); unfold children; rewrite map_map.
  destruct (map _ (empty_cells b)) eqn:E; [|reflexivity].
  apply map_eq_nil, empty_cells_nil_iff in E; congruence.
Qed.

(** With fuel above the number of empty cells, [minimax_fuel] returns the
    value of the position at that fuel and leaves the array unchanged. *)
Lemma minimax_fuel_correct fuel depth m b :
  (count_empty b < fuel)%nat ->
  minimax_fuel fuel depth m b = Some (Fin (value fuel b m), b).
Proof.
  revert depth m b; induction fuel as [|fuel IH]; intros depth m b Hf; [lia|].
  rewrite value_S; cbn [minimax_fuel]; rewrite !bind_gets.
  destruct (check_win b 2); [reflexivity|]; rewrite bind_gets.
  destruct (check_win b 1); [reflexivity|]; rewrite bind_gets.
  destruct (is_board_full b) eqn:Hfull; [reflexivity|].
  destruct m; [apply (minimax_loop fuel b true)|apply (minimax_loop fuel b false)];
    auto; intros a r c; unfold read, sel_step;
    rewrite bind_gets; cbn [fst snd];
    (destruct (Z.eqb_spec (get b r c) 0) as [E|E]; [|reflexivity]);
    (erewrite probe_restores; [reflexivity|exact E|]); apply IH;
    match goal with
    | |- (count_empty (set _ _ _ ?v) < _)%nat =>
        rewrite <- (count_empty_set b r c v E) in Hf; [lia|discriminate]
    end.
Qed.

Lemma minimax_correct depth m b :
  minimax depth m b = Some (Fin (game_value b m), b).
Proof.
  apply minimax_fuel_correct; pose proof (count_empty_le b); unfold MINIMAX_FUEL; lia.
Qed.

(** C2: [minimax] (fuel 10) terminates on every board, returns the game
    value of the position as a finite score (never [-inf] or [inf]), and
    leaves the shared array exactly as it found it. *)
Theorem minimax_refines depth is_maximizing b :
  minimax depth is_maximizing b = Some (Fin (game_value b is_maximizing), b).
Proof.
  apply minimax_fuel_correct; pose proof (count_empty_le b); unfold MINIMAX_FUEL; lia.
Qed.

Lemma best_move_run b :
  best_move b =
  match snd (fold_left (argmax_step (is_empty_cell b) (ai_child_value b)) all_cells (NegInf, None)) with
  | Some (r, c) => Some (true, set b r c 2)
  | None => Some (false, b)
  end.
Proof.
  unfold best_move, bind at 1.
  rewrite (for_cells_frame _ (argmax_step (is_empty_cell b) (ai_child_value b))).
  - destruct (fold_left _ all_cells _) as [best [[r c]|]]; reflexivity.
  - intros [best mv] r c; unfold read, argmax_step, is_empty_cell; rewrite bind_gets.
    cbn [fst snd]; destruct (Z.eqb_spec (get b r c) 0) as [E|E]; [|reflexivity].
    erewrite probe_restores; [reflexivity|exact E|apply minimax_correct].
Qed.

(** On a board with an empty cell, [best_move] plays the first empty cell
    (in row-major order) whose value is maximal. *)
Lemma best_move_argmax b :
  is_board_full b = false ->
  exists l1 r c l2, empty_cells b = l1 ++ (r, c) :: l2
    /\ best_move b = Some (true, set b r c 2)
    /\ Forall (fun rc => ai_child_value b rc < ai_child_value b (r, c))%Z l1
    /\ Forall (fun rc => ai_child_value b rc <= ai_child_value b (r, c))%Z l2.
Proof.
  intros Hfull; rewrite best_move_run, argmax_filter.
  assert (NE : empty_cells b <> []) by (rewrite empty_cells_nil_iff; congruence).
  destruct (argmax_first (ai_child_value b) _ NE) as (l1 & [r c] & l2 & E & R & H1 & H2).
  unfold empty_cells in *; fold (is_empty_cell b) in *.
  exists l1, r, c, l2; rewrite R; auto.
Qed.

(** C13: on a full board [best_move] finds no move ([move] stays
    [(-1, -1)]): it returns [False] and leaves the array unchanged. *)
Theorem best_move_full b :
  is_board_full b = true -> best_move b = Some (false, b).
Proof.
  intros Hfull; rewrite best_move_run, argmax_nil; [reflexivity|].
  apply empty_cells_nil_iff, Hfull.
Qed.

Lemma best_move_full_witness :
  is_board_full (mkBoard 1 2 1 1 2 2 2 1 1) = true
  /\ best_move (mkBoard 1 2 1 1 2 2 2 1 1) = Some (false, mkBoard 1 2 1 1 2 2 2 1 1).
Proof. split; [reflexivity|apply best_move_full; reflexivity]. Defined.

(** ** Consequences for play *)

Lemma nonterminal_value b m :
  check_win b 2 = false -> check_win b 1 = false -> is_board_full b = false ->
  game_value b m = best_of m (map (fun b' => game_value b' (negb m)) (children b m)).
Proof. intros H2 H1 Hf; rewrite game_value_unfold, H2, H1, Hf; reflexivity. Qed.

Lemma in_children_values b m r c :
  get b r c = 0%Z ->
  In (game_value (set b r c (mover m)) (negb m))
     (map (fun b' => game_value b' (negb m)) (children b m)).
Proof. intros E; apply (in_map (fun b' => game_value b' (negb m))), in_children; eauto. Qed.

Lemma human_win_value b m :
  check_win b 2 = false -> check_win b 1 = true -> game_value b m = (-1)%Z.
Proof. intros H2 H1; rewrite game_value_unfold, H2, H1; reflexivity. Qed.

Lemma draw_value b m :
  check_win b 2 = false -> check_win b 1 = false -> is_board_full b = true ->
  game_value b m = 0%Z.
Proof. intros H2 H1 Hf; rewrite game_value_unfold, H2, H1, Hf; reflexivity. Qed.

(** A human reply never raises the value above the position's value with
    the human to move. *)
Lemma human_move_value b r c :
  check_win b 2 = false -> check_win b 1 = false -> is_board_full b = false ->
  get b r c = 0%Z -> (game_value b false <= game_value (set b r c 1) true)%Z.
Proof.
  intros H2 H1 Hf E; rewrite (nonterminal_value b false H2 H1 Hf).
  apply best_of_min_le, (in_children_values b false r c E).
Qed.

(** The move [best_move] plays keeps the position's value. *)
Lemma best_move_value b :
  check_win b 2 = false -> check_win b 1 = false -> is_board_full b = false ->
  exists r c, best_move b = Some (true, set b r c 2) /\ get b r c = 0%Z
    /\ game_value (set b r c 2) false = game_value b true.
Proof.
  intros H2 H1 Hf.
  destruct (best_move_argmax b Hf) as (l1 & r & c & l2 & E & R & L1 & L2).
  assert (Hin : In (r, c) (empty_cells b)) by (rewrite E; apply in_elt).
  exists r, c; split; [exact R|]; split; [apply in_empty_cells, Hin|].
  rewrite (nonterminal_value b true H2 H1 Hf); symmetry; apply best_of_max_eq.
  - apply (in_children_values b true r c), in_empty_cells, Hin.
  - unfold children; rewrite map_map; intros w (rc & <- & Hrc)%in_map_iff.
    change (ai_child_value b rc <= ai_child_value b (r, c))%Z.
    rewrite E in Hrc; apply in_app_or in Hrc as [Hrc|[<-|Hrc]];
      [eapply Forall_forall in L1; [|exact Hrc]; lia|lia|].
    eapply Forall_forall in L2; [exact L2|exact Hrc].
Qed.

(** ** What the search promises the game loop *)

#[export] Instance best_move_player : AIPlayer best_move.
Proof.
  split; [|exact best_move_value].
  intros b; rewrite best_move_run; destruct_matches; eauto.
Qed.

Lemma value_bounds n b m : (-1 <= value n b m <= 1)%Z.
Proof.
  revert b m; induction n as [|n IH]; intros b m; [cbn; lia|]; rewrite value_S.
  destruct (check_win b 2); [lia|]; destruct (check_win b 1); [lia|].
  destruct (is_board_full b); [lia|].
  set (f := fun b' => value n b' (negb m)).
  destruct (map f (children b m)) as [|v vs] eqn:E; [cbn; lia|].
  assert (I : In (best_of m (v :: vs)) (map f (children b m)))
    by (rewrite E; apply best_of_in; discriminate).
  apply in_map_iff in I as (b' & <- & _); apply IH.
Qed.

(** C4: on a board with an empty cell, [best_move] marks an empty cell with
    the AI's [2] and returns [True]; no empty cell has a higher value for
    the AI, and every empty cell before it in row-major order has a
    strictly lower one (a later cell replaces the incumbent only when its
    score is strictly greater). *)
Theorem best_move_spec b :
  is_board_full b = false ->
  exists r c, best_move b = Some (true, mark_square b r c 2) /\ get b r c = 0%Z
    /\ forall r' c', get b r' c' = 0%Z ->
         (ai_child_value b (r', c') <= ai_child_value b (r, c))%Z
         /\ ((cell_index r' c' < cell_index r c)%Z ->
             (ai_child_value b (r', c') < ai_child_value b (r, c))%Z).
Proof.
  intros Hf; destruct (best_move_argmax b Hf) as (l1 & r & c & l2 & E & R & L1 & L2).
  pose proof (empty_cells_sorted b) as Srt; rewrite E in Srt.
  apply StronglySorted_after in Srt; rewrite Forall_forall in Srt.
  rewrite Forall_forall in L1, L2.
  assert (Hin : In (r, c) (empty_cells b)) by (rewrite E; apply in_elt).
  exists r, c; split; [exact R|]; split; [apply in_empty_cells, Hin|].
  intros r' c' E'; apply in_empty_cells in E'; rewrite E in E'.
  apply in_app_or in E' as [H|[H|H]].
  - specialize (L1 _ H); split; lia.
  - injection H as -> ->; split; lia.
  - specialize (L2 _ H); specialize (Srt _ H); cbn in Srt; split; lia.
Qed.

Lemma best_move_spec_witness :
  is_board_full zeros = false
  /\ exists r c, best_move zeros = Some (true, mark_square zeros r c 2) /\ get zeros r c = 0%Z
    /\ forall r' c', get zeros r' c' = 0%Z ->
         (ai_child_value zeros (r', c') <= ai_child_value zeros (r, c))%Z
         /\ ((cell_index r' c' < cell_index r c)%Z ->
             (ai_child_value zeros (r', c') < ai_child_value zeros (r, c))%Z).
Proof. split; [reflexivity|apply best_move_spec; reflexivity]. Defined.

(** ** The opening position *)

(** With the human to move on the empty board (the opening of every game
    [main] starts), the game value is a draw: the AI can always hold it. *)
Lemma opening_value : game_value zeros false = 0%Z.
Proof. vm_compute; reflexivity. Qed.

End Search.
