(* ===== verification/Optimality.v ===== *)
(** * What the minimax value means: strategies that force an outcome

    The refinement theorem of [Minimax] says that the code computes
    [game_value]; this file says what that score means in terms of play: [can_force v b m] holds when the AI has a strategy
    that, against every reply of the human, reaches a finished position
    whose outcome for the AI is at least [v] ([1] AI line, [-1] human
    line, [0] full board), the side to move in [b] being the AI when [m].
    [can_hold v b m] is the mirror image: the human can hold the AI to
    at most [v].  Theorem: the score [minimax] returns on [b] is at
    least [v] exactly when [can_force v b m], and at most [v] exactly
    when [can_hold v b m]: the program computes the value of optimal
    play. *)

From Stdlib Require Import ZArith List Bool Lia.
From S2P Require Import Prelude Board Minimax.
Import ListNotations BoardModel Search.

Module Optimality.

(** The position is finished: [minimax]'s three terminal tests. *)
Definition terminal (b : board) : bool :=
  check_win b 2 || check_win b 1 || is_board_full b.

(** The result of a finished position for the AI, tested in the order of
    [minimax]. *)
Definition outcome (b : board) : Z :=
  if check_win b 2 then 1%Z else if check_win b 1 then (-1)%Z else 0%Z.

(** The AI can force an outcome of at least [v]: at a finished position
    the outcome is at least [v]; on the AI's turn some move into an empty
    cell keeps the guarantee; on the human's turn every move does. *)
Inductive can_force (v : Z) : board -> bool -> Prop :=
| force_end b m :
    terminal b = true -> (v <= outcome b)%Z -> can_force v b m
| force_ai b r c :
    terminal b = false -> get b r c = 0%Z ->
    can_force v (set b r c 2) false -> can_force v b true
| force_human b :
    terminal b = false ->
    (forall r c, get b r c = 0%Z -> can_force v (set b r c 1) true) ->
    can_force v b false.

(** The human can hold the AI to an outcome of at most [v]: the mirror
    image of [can_force]. *)
Inductive can_hold (v : Z) : board -> bool -> Prop :=
| hold_end b m :
    terminal b = true -> (outcome b <= v)%Z -> can_hold v b m
| hold_ai b :
    terminal b = false ->
    (forall r c, get b r c = 0%Z -> can_hold v (set b r c 2) false) ->
    can_hold v b true
| hold_human b r c :
    terminal b = false -> get b r c = 0%Z ->
    can_hold v (set b r c 1) true -> can_hold v b false.

(** ** The value is what the AI can force and the human can hold *)

Lemma terminal_false b :
  terminal b = false ->
  check_win b 2 = false /\ check_win b 1 = false /\ is_board_full b = false.
Proof. unfold terminal; intros H; apply orb_false_elim in H as [H H3]; apply orb_false_elim in H; tauto. Qed.

Lemma terminal_value n b m :
  terminal b = true -> value (S n) b m = outcome b.
Proof.
  unfold terminal, outcome; intros T; rewrite value_S.
  destruct (check_win b 2); [reflexivity|]; destruct (check_win b 1); [reflexivity|].
  destruct (is_board_full b); [reflexivity|discriminate].
Qed.

Lemma children_values_nonempty n b m :
  is_board_full b = false ->
  map (fun b' => value n b' (negb m)) (children b m) <> [].
Proof.
  intros F E; apply map_eq_nil in E; unfold children in E; apply map_eq_nil in E.
  apply empty_cells_nil_iff in E; congruence.
Qed.

Lemma child_in_values n b m r c :
  get b r c = 0%Z ->
  In (value n (set b r c (mover m)) (negb m)) (map (fun b' => value n b' (negb m)) (children b m)).
Proof. intros E; apply (in_map (fun b' => value n b' (negb m))), in_children; eauto. Qed.

Lemma value_forces n b m v :
  (count_empty b < n)%nat -> ((v <= value n b m)%Z <-> can_force v b m).
Proof.
  revert b m; induction n as [|n IH]; intros b m Hn; [lia|].
  destruct (terminal b) eqn:T.
  - rewrite (terminal_value n b m T); split; [intros; apply force_end; assumption|].
    intros H; inversion H; subst; [assumption|congruence|congruence].
  - destruct (terminal_false b T) as (W2 & W1 & F).
    rewrite value_S, W2, W1, F.
    assert (Hc : forall r c v', get b r c = 0%Z -> v' <> 0%Z ->
                   (count_empty (set b r c v') < n)%nat)
      by (intros r c v' E Hv'; rewrite <- (count_empty_set b r c v' E Hv') in Hn; lia).
    destruct m.
    + rewrite best_of_max_ge_iff by (apply children_values_nonempty, F); split.
      * intros (w & Hw & Hv); apply in_map_iff in Hw as (b' & <- & Hb').
        apply in_children in Hb' as (r & c & E & ->).
        apply (force_ai v b r c T E), IH; [apply Hc; [exact E|discriminate]|exact Hv].
      * intros H; inversion H as [b0 m0 T'|b0 r c T' E Hf|]; subst; [congruence|].
        exists (value n (set b r c (mover true)) (negb true)); split;
          [apply child_in_values, E|apply IH; [apply Hc; [exact E|discriminate]|exact Hf]].
    + rewrite best_of_min_ge_iff by (apply children_values_nonempty, F); split.
      * intros Hall; apply (force_human v b T); intros r c E.
        apply IH; [apply Hc; [exact E|discriminate]|apply Hall, (child_in_values n b false r c E)].
      * intros H w Hw; inversion H as [b0 m0 T'| |b0 T' Hh]; subst; [congruence|].
        apply in_map_iff in Hw as (b' & <- & Hb'); apply in_children in Hb' as (r & c & E & ->).
        apply IH; [apply Hc; [exact E|discriminate]|apply Hh, E].
Qed.

Lemma value_holds n b m v :
  (count_empty b < n)%nat -> ((value n b m <= v)%Z <-> can_hold v b m).
Proof.
  revert b m; induction n as [|n IH]; intros b m Hn; [lia|].
  destruct (terminal b) eqn:T.
  - rewrite (terminal_value n b m T); split; [intros; apply hold_end; assumption|].
    intros H; inversion H; subst; [assumption|congruence|congruence].
  - destruct (terminal_false b T) as (W2 & W1 & F).
    rewrite value_S, W2, W1, F.
    assert (Hc : forall r c v', get b r c = 0%Z -> v' <> 0%Z ->
                   (count_empty (set b r c v') < n)%nat)
      by (intros r c v' E Hv'; rewrite <- (count_empty_set b r c v' E Hv') in Hn; lia).
    destruct m.
    + rewrite best_of_max_le_iff by (apply children_values_nonempty, F); split.
      * intros Hall; apply (hold_ai v b T); intros r c E.
        apply IH; [apply Hc; [exact E|discriminate]|apply Hall, (child_in_values n b true r c E)].
      * intros H w Hw; inversion H as [b0 m0 T'|b0 T' Hh|]; subst; [congruence|].
        apply in_map_iff in Hw as (b' & <- & Hb'); apply in_children in Hb' as (r & c & E & ->).
        apply IH; [apply Hc; [exact E|discriminate]|apply Hh, E].
    + rewrite best_of_min_le_iff by (apply children_values_nonempty, F); split.
      * intros (w & Hw & Hv); apply in_map_iff in Hw as (b' & <- & Hb').
        apply in_children in Hb' as (r & c & E & ->).
        apply (hold_human v b r c T E), IH; [apply Hc; [exact E|discriminate]|exact Hv].
      * intros H; inversion H as [b0 m0 T'| |b0 r c T' E Hf]; subst; [congruence|].
        exists (value n (set b r c (mover false)) (negb false)); split;
          [apply child_in_values, E|apply IH; [apply Hc; [exact E|discriminate]|exact Hf]].
Qed.

(** C3: the score the program's [minimax] computes is the value of the
    game under optimal play: run on any array, it returns a finite score
    [w], leaves the array unchanged, and [w] is at least [v] exactly when
    the AI has a strategy forcing an outcome of at least [v] against every
    reply of the human, and at most [v] exactly when the human has a
    strategy holding the AI to at most [v]. *)
Theorem minimax_optimal_play depth is_maximizing b v :
  exists w, minimax depth is_maximizing b = Some (Fin w, b)
    /\ ((v <= w)%Z <-> can_force v b is_maximizing)
    /\ ((w <= v)%Z <-> can_hold v b is_maximizing).
Proof.
  exists (game_value b is_maximizing); split; [apply minimax_correct|].
  pose proof (count_empty_le b) as L; unfold game_value, MINIMAX_FUEL.
  split; [apply value_forces|apply value_holds]; lia.
Qed.

End Optimality.
