(* ===== verification/Game.v ===== *)
(** * The controller: [reset_game] and the event loop of [main]

    [main()] (src/project_mini.py lines 176-225) keeps three locals,
    [player], [game_over] and [winner], beside the module-level [board];
    together they are the record [state].  One iteration of [while True]
    is a [frame]: every event of [pygame.event.get()] is handled in order
    by [handle_event] (quit, the R key after a game ends, a click of the
    human), then the AI block runs ([ai_turn]); the drawing of a frame is
    added on top of [frame] in [Display].
    A click maps a pixel position to numpy indices by [// SQUARE_SIZE]
    ([np_index]: negative indices wrap, others raise [IndexError]).
    [reachable] is the closure of frames from the state [main] starts in;
    [plays] is a run of frames within one game.  The proofs rest on the
    invariant [inv] and on the contract [AIPlayer] of the search.
    Theorems: the AI never loses; a forced win is always converted; every
    click on a free cell makes progress (the game ends within five);
    invariants of reachable states (mark counts, at most one winner,
    well-formed cells, [winner] agrees with [game_over] and with the
    array); every frame ends on the human's turn or game over and always
    has a result; R restarts.  The theorems on click positions are in
    [Clicks]; the reachable positions below serve as witnesses. *)

From Stdlib Require Import ZArith List Bool Lia.
From S2P Require Import Prelude Board Minimax.
Import ListNotations BoardModel Search.
Open Scope st_scope.

Module Controller.

(** [WIDTH, HEIGHT = 600, 600]; [SQUARE_SIZE = WIDTH // BOARD_COLS]
    (Python's [//] on non-negative ints is [Z.div]). *)
Definition WIDTH : Z := 600.
Definition HEIGHT : Z := 600.
Definition SQUARE_SIZE : Z := WIDTH / BOARD_COLS.

(** [pygame.K_r] *)
Definition K_r : Z := 114.

(** The pygame events the loop inspects; [pos] is a pixel position. *)
Inductive event : Type :=
| QUIT : event
| KEYDOWN (key : Z) : event
| MOUSEBUTTONDOWN (pos : Z * Z) : event
| OTHER_EVENT : event.

(** The locals of [main] and the module-level array. *)
Record state : Type := mkState {
  board_of : board;
  player : Z;          (* 1: the human's turn, 2: the AI's *)
  game_over : bool;
  winner : option Z }. (* None, or 1, 2, 0 for a draw *)

(** [board = np.zeros(..)]; [player = 1; game_over = False; winner = None]. *)
Definition init_state : state := mkState zeros 1 false None.

(** How a step of the loop ends: it goes on, [sys.exit()] ran, numpy
    raised [IndexError], or the search returned no result (a fuel
    exhaustion of the model, which [frame_has_result] excludes). *)
Inductive outcome : Type :=
| Running (s : state) : outcome
| Exited : outcome
| IndexError : outcome
| NoResult : outcome.

Definition idx_of_Z (i : Z) : option idx :=
  match i with 0%Z => Some I0 | 1%Z => Some I1 | 2%Z => Some I2 | _ => None end.

(** numpy indexing of an axis of length 3: [-3 .. -1] count from the end,
    anything outside [-3 .. 2] raises [IndexError]. *)
Definition np_index (i : Z) : option idx :=
  if (i <? 0)%Z then idx_of_Z (i + 3) else idx_of_Z i.

(** [reset_game()]: [board[row][col] = 0] for every cell (the redraw is not
    modelled). *)
Definition reset_game : St board unit :=
  for_cells (fun _ row col => write row col 0) tt.

(** [event.key == pygame.K_r and game_over] *)
Definition restart_pressed (s : state) (key : Z) : bool :=
  (key =? K_r)%Z && game_over s.

(** One pass of the body of [for event in pygame.event.get()]. *)
Definition handle_event (s : state) (ev : event) : outcome :=
  match ev with
  | QUIT => Exited
  | KEYDOWN key =>
      if restart_pressed s key then
        match reset_game (board_of s) with
        | Some (_, b) => Running (mkState b 1 false None)
        | None => NoResult
        end
      else Running s
  | MOUSEBUTTONDOWN (x, y) =>
      if negb (game_over s) && (player s =? 1)%Z then
        let mouseX := (x / SQUARE_SIZE)%Z in
        let mouseY := (y / SQUARE_SIZE)%Z in
        match np_index mouseY, np_index mouseX with
        | Some row, Some col =>
            if available_square (board_of s) row col then
              let b := mark_square (board_of s) row col (player s) in
              if check_win b (player s) then
                Running (mkState b (player s) true (Some (player s)))
              else if is_board_full b then
                Running (mkState b (player s) true (Some 0%Z))
              else Running (mkState b 2 (game_over s) (winner s))
            else Running s
        | _, _ => IndexError
        end
      else Running s
  | OTHER_EVENT => Running s
  end.

(** The events of one iteration, in order; [sys.exit()] and exceptions end
    the loop. *)
Fixpoint handle_events (s : state) (evs : list event) : outcome :=
  match evs with
  | [] => Running s
  | ev :: evs' =>
      match handle_event s ev with
      | Running s' => handle_events s' evs'
      | o => o
      end
  end.

(** [if not game_over and player == 2: if best_move(): ...] *)
Definition ai_turn (s : state) : outcome :=
  if negb (game_over s) && (player s =? 2)%Z then
    match best_move (board_of s) with
    | Some (true, b) =>
        if check_win b 2 then Running (mkState b (player s) true (Some 2%Z))
        else if is_board_full b then Running (mkState b (player s) true (Some 0%Z))
        else Running (mkState b 1 (game_over s) (winner s))
    | Some (false, b) => Running (mkState b (player s) (game_over s) (winner s))
    | None => NoResult
    end
  else Running s.

(** One iteration of [while True] (drawing left out). *)
Definition frame (s : state) (evs : list event) : outcome :=
  match handle_events s evs with
  | Running s' => ai_turn s'
  | o => o
  end.

(** The states the loop of [main] reaches between two iterations. *)
Inductive reachable : state -> Prop :=
| reachable_init : reachable init_state
| reachable_frame s evs s' :
    reachable s -> frame s evs = Running s' -> reachable s'.

(** Human marks equal AI marks or exceed them by one. *)
Definition mark_counts_ok (b : board) : Prop :=
  count_mark b 1 = count_mark b 2 \/ count_mark b 1 = S (count_mark b 2).

(** Between two events: the array is well formed, the marks alternate, at
    most one side has a line; a finished game has a draw or an AI win; in
    a running game nobody has won, a cell is free, and the side to move
    can hold at least a draw for the AI. *)
Definition inv (s : state) : Prop :=
  let b := board_of s in
  wf_board b /\ mark_counts_ok b /\ ~ (check_win b 1 = true /\ check_win b 2 = true)
  /\ (player s = 1 \/ player s = 2)%Z
  /\ if game_over s then winner s = Some 0%Z \/ winner s = Some 2%Z
     else winner s = None /\ check_win b 2 = false /\ check_win b 1 = false
          /\ is_board_full b = false
          /\ ((player s = 1%Z /\ (0 <= game_value b false)%Z /\ count_mark b 1 = count_mark b 2)
              \/ (player s = 2%Z /\ (0 <= game_value b true)%Z
                  /\ count_mark b 1 = S (count_mark b 2))).

(** The frames of one game: each starts from a state where the game is not
    over. *)
Inductive plays : state -> state -> Prop :=
| plays_refl s : plays s s
| plays_step s evs s1 s2 :
    game_over s = false -> frame s evs = Running s1 -> plays s1 s2 -> plays s s2.

(** The AI holds a forced win in a running game. *)
Definition forced_win (s : state) : Prop :=
  game_over s = false
  /\ (if (player s =? 1)%Z then game_value (board_of s) false
      else game_value (board_of s) true) = 1%Z.

(** A click in the middle of a cell. *)
Definition click_cell (row col : idx) : event :=
  MOUSEBUTTONDOWN (SQUARE_SIZE * idx_Z col + SQUARE_SIZE / 2,
                   SQUARE_SIZE * idx_Z row + SQUARE_SIZE / 2)%Z.

(** [click_run n s]: [n] frames from [s], each starting in a running game
    with the human clicking a free cell. *)
Inductive click_run : nat -> state -> Prop :=
| click_run_stop s : click_run 0 s
| click_run_step n s r c s' :
    game_over s = false -> get (board_of s) r c = 0%Z ->
    frame s [click_cell r c] = Running s' -> click_run n s' -> click_run (S n) s.

(** The recorded [winner] agrees with the array: [2] only with a line of
    the AI, [0] only with a full array and no line of either side. *)
Definition winner_ok (s : state) : Prop :=
  (winner s = Some 2%Z -> check_win (board_of s) 2 = true)
  /\ (winner s = Some 0%Z ->
      is_board_full (board_of s) = true /\ check_win (board_of s) 2 = false
      /\ check_win (board_of s) 1 = false).

(** ** The invariant of the loop *)

Lemma reset_game_run b : reset_game b = Some (tt, zeros).
Proof. destruct b; reflexivity. Qed.

Lemma inv_init : inv init_state.
Proof.
  unfold inv, init_state; cbn [board_of player game_over winner].
  split; [intros r c; destruct r, c; auto|].
  split; [left; reflexivity|].
  split; [intros [H _]; discriminate|].
  split; [left; reflexivity|].
  do 4 (split; [reflexivity|]).
  left; split; [reflexivity|split; [rewrite opening_value; lia|reflexivity]].
Qed.

Lemma count_place b r c v w :
  get b r c = 0%Z -> v <> 0%Z ->
  count_mark (set b r c v) w = (count_mark b w + if (v =? w)%Z then 1 else 0)%nat
  \/ (w = 0%Z).
Proof.
  intros E Hv; destruct (Z.eqb_spec w 0) as [->|Hw]; [right; reflexivity|left].
  pose proof (count_mark_set b r c 0 v w E) as C.
  destruct (Z.eqb_spec 0 w); [congruence|lia].
Qed.

(** A mark the human or the AI places: the other side's lines and the
    counts of the other mark stay as they were. *)
Lemma place_facts b r c v o :
  get b r c = 0%Z -> (v = 1 \/ v = 2)%Z -> (o = 1 \/ o = 2)%Z -> v <> o ->
  check_win b o = false ->
  check_win (set b r c v) o = false
  /\ count_mark (set b r c v) v = S (count_mark b v)
  /\ count_mark (set b r c v) o = count_mark b o.
Proof.
  intros E Hv Ho Hvo Hw; assert (Hv0 : v <> 0%Z) by lia; split; [|split].
  - destruct (check_win (set b r c v) o) eqn:W; [|reflexivity].
    rewrite (check_win_set_other b r c v o Hvo W) in Hw; discriminate.
  - destruct (count_place b r c v v E Hv0) as [->|]; [rewrite Z.eqb_refl; lia|lia].
  - destruct (count_place b r c v o E Hv0) as [->|]; [|lia].
    destruct (Z.eqb_spec v o); [congruence|lia].
Qed.

Ltac unfold_inv H :=
  unfold inv in H; cbn [board_of player game_over winner] in H.

Lemma handle_event_inv s ev s' : inv s -> handle_event s ev = Running s' -> inv s'.
Proof.
  intros I H; destruct ev as [|key|[x y]|]; cbn [handle_event] in H.
  - discriminate.
  - destruct (restart_pressed s key); [rewrite reset_game_run in H|];
      injection H as <-; [exact inv_init|exact I].
  - destruct (negb (game_over s) && (player s =? 1)%Z) eqn:G; [|injection H as <-; exact I].
    apply andb_true_iff in G as [G1%negb_true_iff G2%Z.eqb_eq].
    destruct (np_index (y / SQUARE_SIZE)) as [row|], (np_index (x / SQUARE_SIZE)) as [col|];
      try discriminate.
    destruct (available_square (board_of s) row col) eqn:A; [|injection H as <-; exact I].
    unfold available_square in A; apply Z.eqb_eq in A.
    destruct s as [b p over w]; cbn [board_of player game_over winner] in *; subst p over.
    unfold_inv I; destruct I as (Wf & Cnt & Both & Pl & Wn & W2 & W1 & Full & Turn).
    destruct Turn as [(_ & V & C)|(P2 & _)]; [|discriminate].
    unfold mark_square in H.
    destruct (place_facts b row col 1 2 A) as (W2' & C1 & C2); auto; try lia.
    pose proof (human_move_value b row col W2 W1 Full A) as V'.
    destruct (check_win (set b row col 1) 1) eqn:W1'.
    + rewrite (human_win_value _ true W2' W1') in V'; lia.
    + destruct (is_board_full (set b row col 1)) eqn:F'; injection H as <-.
      * unfold inv; cbn [board_of player game_over winner].
        split; [apply wf_set; auto; lia|]; split; [right; lia|].
        split; [intros [? ?]; congruence|]; split; [left; reflexivity|left; reflexivity].
      * unfold inv; cbn [board_of player game_over winner].
        split; [apply wf_set; auto; lia|]; split; [right; lia|].
        split; [intros [? ?]; congruence|]; split; [right; reflexivity|].
        do 4 (split; [assumption|]); right; split; [reflexivity|split; lia].
  - injection H as <-; exact I.
Qed.

Lemma ai_turn_inv s s' : inv s -> ai_turn s = Running s' -> inv s'.
Proof.
  intros I H; unfold ai_turn in H.
  destruct (negb (game_over s) && (player s =? 2)%Z) eqn:G; [|injection H as <-; exact I].
  apply andb_true_iff in G as [G1%negb_true_iff G2%Z.eqb_eq].
  destruct s as [b p over w]; cbn [board_of player game_over winner] in *; subst p over.
  unfold_inv I; destruct I as (Wf & Cnt & Both & Pl & Wn & W2 & W1 & Full & Turn).
  destruct Turn as [(P1 & _)|(_ & V & C)]; [discriminate|].
  destruct (ai_keeps_value (choose := best_move) b W2 W1 Full) as (r & c & R & E & Veq);
    rewrite R in H.
  destruct (place_facts b r c 2 1 E) as (W1' & C2 & C1); auto; try lia.
  unfold inv; destruct (check_win (set b r c 2) 2) eqn:W2';
    [|destruct (is_board_full (set b r c 2)) eqn:F']; injection H as <-;
    cbn [board_of player game_over winner];
    (split; [apply wf_set; auto; lia|]); (split; [left; lia|]);
    (split; [intros [? ?]; congruence|]).
  - split; [right; reflexivity|right; reflexivity].
  - split; [right; reflexivity|left; reflexivity].
  - split; [left; reflexivity|]; do 4 (split; [assumption|]).
    left; split; [reflexivity|split; [rewrite Veq; exact V|lia]].
Qed.

Lemma handle_events_inv s evs s' : inv s -> handle_events s evs = Running s' -> inv s'.
Proof.
  revert s; induction evs as [|ev evs IH]; intros s I H; cbn [handle_events] in H.
  - injection H as <-; exact I.
  - destruct (handle_event s ev) as [s1| | |] eqn:E; try discriminate.
    exact (IH s1 (handle_event_inv s ev s1 I E) H).
Qed.

Lemma frame_inv s evs s' : inv s -> frame s evs = Running s' -> inv s'.
Proof.
  unfold frame; intros I H.
  destruct (handle_events s evs) as [s1| | |] eqn:E; try discriminate.
  exact (ai_turn_inv s1 s' (handle_events_inv s evs s1 I E) H).
Qed.

Lemma reachable_inv s : reachable s -> inv s.
Proof.
  induction 1 as [|s evs s' _ IH H]; [exact inv_init|exact (frame_inv s evs s' IH H)].
Qed.

(** After the AI block the game is over or it is the human's turn. *)
Lemma ai_turn_result s s' :
  inv s -> ai_turn s = Running s' -> game_over s' = true \/ player s' = 1%Z.
Proof.
  intros I H; unfold ai_turn in H.
  destruct (negb (game_over s) && (player s =? 2)%Z) eqn:G.
  - apply andb_true_iff in G as [G1%negb_true_iff G2%Z.eqb_eq].
    destruct s as [b p over w]; cbn [board_of player game_over winner] in *; subst p over.
    unfold_inv I; destruct I as (_ & _ & _ & _ & _ & W2 & W1 & Full & _).
    destruct (ai_keeps_value (choose := best_move) b W2 W1 Full) as (r & c & R & _);
      rewrite R in H.
    destruct (check_win (set b r c 2) 2); [|destruct (is_board_full (set b r c 2))];
      injection H as <-; cbn; auto.
  - injection H as <-; unfold_inv I; destruct I as (_ & _ & _ & Pl & _).
    destruct (game_over s); [left; reflexivity|right].
    apply andb_false_iff in G as [G|G]; [discriminate|apply Z.eqb_neq in G; lia].
Qed.

Lemma handle_event_result s ev : handle_event s ev <> NoResult.
Proof.
  destruct ev as [|key|[x y]|]; cbn [handle_event]; rewrite ?reset_game_run;
    destruct_matches; discriminate.
Qed.

Lemma handle_events_result s evs : handle_events s evs <> NoResult.
Proof.
  revert s; induction evs as [|ev evs IH]; intros s; cbn [handle_events]; [discriminate|].
  pose proof (handle_event_result s ev).
  destruct (handle_event s ev); auto; discriminate.
Qed.

Lemma ai_turn_not_index_error s : ai_turn s <> IndexError.
Proof.
  unfold ai_turn; destruct_matches; discriminate.
Qed.

Lemma frame_turn s evs s' :
  inv s -> frame s evs = Running s' -> game_over s' = true \/ player s' = 1%Z.
Proof.
  unfold frame; intros I H.
  destruct (handle_events s evs) as [s1| | |] eqn:E; try discriminate.
  exact (ai_turn_result s1 s' (handle_events_inv s evs s1 I E) H).
Qed.

Lemma reachable_turn s : reachable s -> game_over s = true \/ player s = 1%Z.
Proof.
  induction 1 as [|s evs s' R _ H]; [right; reflexivity|].
  exact (frame_turn s evs s' (reachable_inv s R) H).
Qed.

Lemma winner_ok_none b p o : winner_ok (mkState b p o None).
Proof. split; discriminate. Qed.

Lemma winner_ok_init : winner_ok init_state.
Proof. apply winner_ok_none. Qed.

(** A running game has no winner, so any array goes with it. *)
Lemma winner_ok_running s b p o :
  inv s -> game_over s = false -> winner_ok (mkState b p o (winner s)).
Proof.
  intros I Ov; unfold_inv I; rewrite Ov in I.
  destruct I as (_ & _ & _ & _ & -> & _); apply winner_ok_none.
Qed.

Lemma handle_event_winner_ok s ev s' :
  inv s -> winner_ok s -> handle_event s ev = Running s' -> winner_ok s'.
Proof.
  intros I Wk H; destruct ev as [|key|[x y]|]; cbn [handle_event] in H.
  - discriminate.
  - destruct (restart_pressed s key); [rewrite reset_game_run in H|];
      injection H as <-; [exact winner_ok_init|exact Wk].
  - destruct (negb (game_over s) && (player s =? 1)%Z) eqn:G; [|injection H as <-; exact Wk].
    apply andb_true_iff in G as [G1%negb_true_iff G2%Z.eqb_eq].
    destruct (np_index (y / SQUARE_SIZE)) as [row|], (np_index (x / SQUARE_SIZE)) as [col|];
      try discriminate.
    destruct (available_square (board_of s) row col) eqn:A; [|injection H as <-; exact Wk].
    unfold available_square in A; apply Z.eqb_eq in A.
    pose proof (winner_ok_running s (mark_square (board_of s) row col (player s)) 2
                  (game_over s) I G1) as Wr.
    unfold_inv I; rewrite G1 in I; destruct I as (_ & _ & _ & _ & _ & W2 & _).
    unfold mark_square in *; rewrite G2 in *.
    destruct (place_facts (board_of s) row col 1 2 A) as (W2' & _); auto; try lia.
    destruct (check_win _ 1) eqn:W1; [|destruct (is_board_full _) eqn:F];
      injection H as <-; [split; discriminate|split; [discriminate|auto]|exact Wr].
  - injection H as <-; exact Wk.
Qed.

Lemma ai_turn_winner_ok s s' :
  inv s -> winner_ok s -> ai_turn s = Running s' -> winner_ok s'.
Proof.
  intros I Wk H; unfold ai_turn in H.
  destruct (negb (game_over s) && (player s =? 2)%Z) eqn:G; [|injection H as <-; exact Wk].
  apply andb_true_iff in G as [G1%negb_true_iff _].
  unfold inv in I; rewrite G1 in I.
  destruct I as (_ & _ & _ & _ & Wn & W2 & W1 & Full & _).
  destruct (ai_keeps_value (choose := best_move) (board_of s) W2 W1 Full) as (r & c & R & E & _);
    rewrite R in H.
  destruct (place_facts (board_of s) r c 2 1 E) as (W1' & _); auto; try lia.
  destruct (check_win (set (board_of s) r c 2) 2) eqn:W2';
    [|destruct (is_board_full (set (board_of s) r c 2)) eqn:F]; injection H as <-;
    [split; [auto|discriminate]|split; [discriminate|auto]|rewrite Wn; apply winner_ok_none].
Qed.

Lemma handle_events_winner_ok s evs s' :
  inv s -> winner_ok s -> handle_events s evs = Running s' -> winner_ok s'.
Proof.
  revert s; induction evs as [|ev evs IH]; intros s I Wk H; cbn [handle_events] in H.
  - injection H as <-; exact Wk.
  - destruct (handle_event s ev) as [s1| | |] eqn:E; try discriminate.
    exact (IH s1 (handle_event_inv s ev s1 I E) (handle_event_winner_ok s ev s1 I Wk E) H).
Qed.

Lemma frame_winner_ok s evs s' :
  inv s -> winner_ok s -> frame s evs = Running s' -> winner_ok s'.
Proof.
  unfold frame; intros I Wk H.
  destruct (handle_events s evs) as [s1| | |] eqn:E; try discriminate.
  exact (ai_turn_winner_ok s1 s' (handle_events_inv s evs s1 I E)
           (handle_events_winner_ok s evs s1 I Wk E) H).
Qed.

Lemma reachable_winner_ok s : reachable s -> winner_ok s.
Proof.
  induction 1 as [|s evs s' R IH H]; [exact winner_ok_init|].
  exact (frame_winner_ok s evs s' (reachable_inv s R) IH H).
Qed.

(** ** Properties of the game loop *)

(** C1: the AI never loses: no state the loop of [main] reaches from its
    start has [winner == 1], whatever the human clicks. *)
Theorem ai_never_loses s : reachable s -> winner s <> Some 1%Z.
Proof.
  intros R; pose proof (reachable_inv s R) as I; unfold_inv I.
  destruct I as (_ & _ & _ & _ & I); destruct (game_over s).
  - destruct I as [-> | ->]; congruence.
  - destruct I as [-> _]; discriminate.
Qed.

Lemma ai_never_loses_witness : reachable init_state /\ winner init_state <> Some 1%Z.
Proof. split; [constructor|apply (ai_never_loses init_state); constructor]. Defined.

(** C5: the board [main] reaches always has human marks equal to AI marks
    or one more (the human moves first and turns alternate). *)
Theorem reachable_mark_counts s :
  reachable s ->
  count_mark (board_of s) 1 = count_mark (board_of s) 2
  \/ count_mark (board_of s) 1 = S (count_mark (board_of s) 2).
Proof. intros R; apply (reachable_inv s R). Qed.

Lemma reachable_mark_counts_witness :
  reachable init_state /\ count_mark (board_of init_state) 1 = count_mark (board_of init_state) 2.
Proof.
  split; [constructor|].
  destruct (reachable_mark_counts init_state reachable_init) as [E|E]; [exact E|].
  vm_compute in E; discriminate.
Defined.

(** C6: in a reachable state at most one side has three in a row. *)
Theorem reachable_one_winner s :
  reachable s -> ~ (check_win (board_of s) 1 = true /\ check_win (board_of s) 2 = true).
Proof. intros R; apply (reachable_inv s R). Qed.

Lemma reachable_one_winner_witness :
  reachable init_state
  /\ ~ (check_win (board_of init_state) 1 = true /\ check_win (board_of init_state) 2 = true).
Proof. split; [constructor|apply (reachable_one_winner init_state); constructor]. Defined.

(** C20: in a reachable state every cell of the array holds 0, 1 or 2, and
    [player] is 1 or 2. *)
Theorem reachable_wf s :
  reachable s -> wf_board (board_of s) /\ (player s = 1 \/ player s = 2)%Z.
Proof. intros R; pose proof (reachable_inv s R) as I; unfold_inv I; tauto. Qed.

Lemma reachable_wf_witness :
  reachable init_state /\ wf_board (board_of init_state) /\ (player init_state = 1 \/ player init_state = 2)%Z.
Proof. split; [constructor|apply (reachable_wf init_state); constructor]. Defined.

(** C21: in a reachable state [winner] is [None] exactly while the game is
    not over. *)
Theorem reachable_winner_over s :
  reachable s -> (game_over s = false <-> winner s = None).
Proof.
  intros R; pose proof (reachable_inv s R) as I; unfold_inv I.
  destruct I as (_ & _ & _ & _ & I); destruct (game_over s).
  - destruct I as [-> | ->]; split; discriminate.
  - destruct I as [-> _]; tauto.
Qed.

Lemma reachable_winner_over_witness :
  reachable init_state /\ (game_over init_state = false <-> winner init_state = None).
Proof. split; [constructor|apply (reachable_winner_over init_state); constructor]. Defined.

(** C7: the AI always answers in the frame of the human's move: after every
    frame of a reachable state the game is over or it is the human's turn,
    so the loop never waits on an AI that found no move. *)
Theorem frame_ends_on_human_turn s evs s' :
  reachable s -> frame s evs = Running s' -> game_over s' = true \/ player s' = 1%Z.
Proof. intros R; apply frame_turn, reachable_inv, R. Qed.

Lemma frame_ends_on_human_turn_witness :
  let s' := mkState (mkBoard 1 0 0 0 2 0 0 0 0) 1 false None in
  reachable init_state /\ frame init_state [MOUSEBUTTONDOWN (10, 10)%Z] = Running s'
  /\ (game_over s' = true \/ player s' = 1%Z).
Proof.
  cbv zeta.
  assert (F : frame init_state [MOUSEBUTTONDOWN (10, 10)%Z]
              = Running (mkState (mkBoard 1 0 0 0 2 0 0 0 0) 1 false None))
    by (vm_compute; reflexivity).
  split; [constructor|split; [exact F|]].
  exact (frame_ends_on_human_turn _ _ _ reachable_init F).
Defined.

(** C12: one frame of the loop always has a result: the search inside the
    AI block never runs out of fuel, whatever the state and the events. *)
Theorem frame_has_result s evs : frame s evs <> NoResult.
Proof.
  unfold frame; pose proof (handle_events_result s evs).
  destruct (handle_events s evs) as [s1| | |]; auto; try discriminate.
  unfold ai_turn; destruct (ai_total (choose := best_move) (board_of s1)) as (moved & b' & ->).
  destruct_matches; discriminate.
Qed.

(** C16: pressing R once the game is over starts a new game in the state
    [main] starts in: empty array, human to move. *)
Theorem restart_after_game_over s :
  game_over s = true -> handle_event s (KEYDOWN K_r) = Running init_state.
Proof. intros H; cbn [handle_event]; unfold restart_pressed; rewrite H, reset_game_run; reflexivity. Qed.

Lemma restart_after_game_over_witness :
  let s := mkState (mkBoard 1 1 2 1 2 0 2 0 0) 2 true (Some 2%Z) in
  game_over s = true /\ handle_event s (KEYDOWN K_r) = Running init_state.
Proof. cbv zeta; split; [reflexivity|apply restart_after_game_over; reflexivity]. Defined.

(** ** A forced win is never given away *)

Lemma game_value_le_1 b m : (game_value b m <= 1)%Z.
Proof. apply value_bounds. Qed.

Lemma forced_handle_event s ev s' :
  inv s -> forced_win s -> handle_event s ev = Running s' -> forced_win s'.
Proof.
  intros I F H; pose proof F as [Ov Fw].
  destruct ev as [|key|[x y]|]; cbn [handle_event] in H; unfold restart_pressed in H;
    rewrite ?Ov, ?andb_false_r in H; try (injection H as <-; exact F); [discriminate|].
  destruct (player s =? 1)%Z eqn:P; cbn [negb andb] in H; [|injection H as <-; exact F].
  apply Z.eqb_eq in P.
  destruct (np_index (y / SQUARE_SIZE)) as [row|], (np_index (x / SQUARE_SIZE)) as [col|];
    try discriminate.
  destruct (available_square (board_of s) row col) eqn:A; [|injection H as <-; exact F].
  unfold available_square in A; apply Z.eqb_eq in A.
  destruct s as [b p over w]; cbn [board_of player game_over winner] in *; subst p over.
  unfold_inv I; destruct I as (_ & _ & _ & _ & _ & W2 & W1 & Full & _).
  unfold mark_square in H; change (game_value b false = 1%Z) in Fw.
  destruct (place_facts b row col 1 2 A) as (W2' & _); auto; try lia.
  pose proof (human_move_value b row col W2 W1 Full A) as V.
  pose proof (game_value_le_1 (set b row col 1) true).
  destruct (check_win (set b row col 1) 1) eqn:W1'.
  - rewrite (human_win_value _ true W2' W1') in V; lia.
  - destruct (is_board_full (set b row col 1)) eqn:F'.
    + rewrite (draw_value _ true W2' W1' F') in V; lia.
    + injection H as <-; split; [reflexivity|].
      change (game_value (set b row col 1) true = 1%Z); lia.
Qed.

Lemma forced_handle_events s evs s' :
  inv s -> forced_win s -> handle_events s evs = Running s' -> forced_win s'.
Proof.
  revert s; induction evs as [|ev evs IH]; intros s I F H; cbn [handle_events] in H.
  - injection H as <-; exact F.
  - destruct (handle_event s ev) as [s1| | |] eqn:E; try discriminate.
    exact (IH s1 (handle_event_inv s ev s1 I E) (forced_handle_event s ev s1 I F E) H).
Qed.

Lemma forced_ai_turn s s' :
  inv s -> forced_win s -> ai_turn s = Running s' ->
  forced_win s' \/ (game_over s' = true /\ winner s' = Some 2%Z).
Proof.
  intros I F H; pose proof F as [Ov Fw].
  unfold ai_turn in H; rewrite Ov in H; cbn [negb andb] in H.
  destruct (player s =? 2)%Z eqn:P; [|injection H as <-; left; exact F].
  apply Z.eqb_eq in P.
  destruct s as [b p over w]; cbn [board_of player game_over winner] in *; subst p over.
  unfold_inv I; destruct I as (_ & _ & _ & _ & _ & W2 & W1 & Full & _).
  change (game_value b true = 1%Z) in Fw.
  destruct (ai_keeps_value (choose := best_move) b W2 W1 Full) as (r & c & R & E & Veq);
    rewrite R in H.
  destruct (place_facts b r c 2 1 E) as (W1' & _); auto; try lia.
  destruct (check_win (set b r c 2) 2) eqn:W2'; [injection H as <-; right; split; reflexivity|].
  destruct (is_board_full (set b r c 2)) eqn:F'.
  - rewrite (draw_value _ false W2' W1' F') in Veq; lia.
  - injection H as <-; left; split; [reflexivity|].
    change (game_value (set b r c 2) false = 1%Z); lia.
Qed.

Lemma forced_frame s evs s' :
  inv s -> forced_win s -> frame s evs = Running s' ->
  forced_win s' \/ (game_over s' = true /\ winner s' = Some 2%Z).
Proof.
  unfold frame; intros I F H.
  destruct (handle_events s evs) as [s1| | |] eqn:E; try discriminate.
  exact (forced_ai_turn s1 s' (handle_events_inv s evs s1 I E)
           (forced_handle_events s evs s1 I F E) H).
Qed.

Lemma plays_inv s s' : inv s -> plays s s' -> inv s'.
Proof. induction 2; eauto using frame_inv. Qed.

(** C8: once the AI holds a forced win in a running game, every way the
    game can end from there, whatever the human clicks, ends with
    [winner == 2]: the AI never lets a won game slip into a draw (even
    though it may not take the quickest win). *)
Theorem forced_win_kept s s' :
  reachable s -> forced_win s -> plays s s' -> game_over s' = true ->
  winner s' = Some 2%Z.
Proof.
  intros R F P; apply reachable_inv in R; revert R F.
  induction P as [s|s evs s1 s2 Ov Fr P IH]; intros I F Ov'.
  - destruct F as [F _]; congruence.
  - destruct (forced_frame s evs s1 I F Fr) as [F1|[Ov1 W1]].
    + exact (IH (frame_inv s evs s1 I Fr) F1 Ov').
    + inversion P as [|s3 evs' s4 s5 Ov3]; subst; [exact W1|congruence].
Qed.

(** ** Progress of a game *)

Lemma np_index_click (i : idx) :
  np_index ((SQUARE_SIZE * idx_Z i + SQUARE_SIZE / 2) / SQUARE_SIZE) = Some i.
Proof. destruct i; reflexivity. Qed.

(** The AI block on a running state where it is the AI's turn: it ends the
    game or fills one more cell and hands the turn back. *)
Lemma ai_turn_progress b w :
  inv (mkState b 2 false w) ->
  exists s', ai_turn (mkState b 2 false w) = Running s'
    /\ (game_over s' = true \/ S (count_empty (board_of s')) = count_empty b).
Proof.
  intros I; pose proof I as I'; unfold_inv I'.
  destruct I' as (_ & _ & _ & _ & _ & W2 & W1 & Full & _).
  destruct (ai_keeps_value (choose := best_move) b W2 W1 Full) as (r & c & R & E & _).
  unfold ai_turn; cbn [game_over player negb andb Z.eqb Pos.eqb board_of]; rewrite R.
  destruct (check_win (set b r c 2) 2); [eexists; split; [reflexivity|left; reflexivity]|].
  destruct (is_board_full (set b r c 2)); eexists; (split; [reflexivity|]);
    [left; reflexivity|right; apply count_empty_set; [exact E|discriminate]].
Qed.

(** A frame in which the human clicks a free cell of a running game
    completes, and ends the game or fills two cells. *)
Lemma click_frame_progress s r c :
  inv s -> player s = 1%Z -> game_over s = false -> get (board_of s) r c = 0%Z ->
  exists s', frame s [click_cell r c] = Running s'
    /\ (game_over s' = true
        \/ (count_empty (board_of s') + 2 = count_empty (board_of s))%nat).
Proof.
  intros I P Ov E.
  destruct s as [b p over w]; cbn [board_of player game_over winner] in *; subst p over.
  set (b1 := set b r c 1).
  assert (Hclick : handle_event (mkState b 1 false w) (click_cell r c)
    = if check_win b1 1 then Running (mkState b1 1 true (Some 1%Z))
      else if is_board_full b1 then Running (mkState b1 1 true (Some 0%Z))
      else Running (mkState b1 2 false w)).
  { unfold click_cell; cbn [handle_event board_of player game_over winner].
    rewrite !np_index_click; unfold available_square; rewrite E; reflexivity. }
  unfold frame; cbn [handle_events]; rewrite Hclick.
  destruct (check_win b1 1) eqn:W1; [eexists; split; [reflexivity|left; reflexivity]|].
  destruct (is_board_full b1) eqn:F1; [eexists; split; [reflexivity|left; reflexivity]|].
  assert (C1 : S (count_empty b1) = count_empty b)
    by (apply count_empty_set; [exact E|discriminate]).
  assert (I1 : inv (mkState b1 2 false w))
    by (apply (handle_event_inv _ (click_cell r c) _ I); rewrite Hclick; reflexivity).
  destruct (ai_turn_progress b1 w I1) as (s2 & A & [Ov2|C2]);
    exists s2; split; [exact A|left; exact Ov2|exact A|right; lia].
Qed.

(** C9: from a reachable running state, a frame in which the human clicks
    a free cell always completes, and either ends the game or leaves two
    cells fewer empty (the human's mark and the AI's answer); so a game
    ends after at most five such frames. *)
Theorem human_click_progress s r c :
  reachable s -> game_over s = false -> get (board_of s) r c = 0%Z ->
  exists s', frame s [click_cell r c] = Running s'
    /\ (game_over s' = true
        \/ (count_empty (board_of s') + 2 = count_empty (board_of s))%nat).
Proof.
  intros R Ov E; destruct (reachable_turn s R) as [Ov'|P]; [congruence|].
  exact (click_frame_progress s r c (reachable_inv s R) P Ov E).
Qed.

Lemma human_click_progress_witness :
  reachable init_state /\ game_over init_state = false /\ get (board_of init_state) I0 I0 = 0%Z
  /\ exists s', frame init_state [click_cell I0 I0] = Running s'
       /\ (game_over s' = true
           \/ (count_empty (board_of s') + 2 = count_empty (board_of init_state))%nat).
Proof.
  split; [constructor|split; [reflexivity|split; [reflexivity|]]].
  exact (human_click_progress init_state I0 I0 reachable_init eq_refl eq_refl).
Defined.

(** Each click frame ends the game or fills two of the free cells. *)
Lemma click_run_bound n s :
  reachable s -> click_run n s -> (2 * n <= count_empty (board_of s) + 1)%nat.
Proof.
  intros R Hr; revert R; induction Hr as [s|n s r c s' Ov E F Hr IH]; intros R; [lia|].
  destruct (reachable_turn s R) as [Ov'|P]; [congruence|].
  assert (Pos : (1 <= count_empty (board_of s))%nat).
  { pose proof (proj2 (in_empty_cells (board_of s) r c) E) as Hin.
    change (count_empty (board_of s)) with (length (empty_cells (board_of s))).
    destruct (empty_cells (board_of s)); [contradiction|cbn; lia]. }
  destruct (click_frame_progress s r c (reachable_inv s R) P Ov E) as (s2 & F2 & [Ov2|C2]);
    rewrite F in F2; injection F2 as <-.
  - inversion Hr; subst; [lia|congruence].
  - specialize (IH (reachable_frame s _ s' R F)); lia.
Qed.

(** C10: every game ends within five clicks: from a reachable state, a run
    of frames in which the human clicks a free cell of a running game has
    at most five frames, whichever cells the human picks. *)
Theorem game_ends_within_five_clicks s n : reachable s -> click_run n s -> (n <= 5)%nat.
Proof.
  intros R Hr; pose proof (click_run_bound n s R Hr); pose proof (count_empty_le (board_of s)); lia.
Qed.

Lemma game_ends_within_five_clicks_witness :
  reachable init_state /\ click_run 1 init_state /\ (1 <= 5)%nat.
Proof.
  assert (Hr : click_run 1 init_state).
  { apply (click_run_step 0 init_state I0 I0 (mkState (mkBoard 1 0 0 0 2 0 0 0 0) 1 false None));
      [reflexivity|reflexivity|vm_compute; reflexivity|constructor]. }
  split; [constructor|split; [exact Hr|exact (game_ends_within_five_clicks init_state 1 reachable_init Hr)]].
Defined.

(** ** Reachable positions used by the witnesses *)

(** The positions of the game where the human plays (0,0), (0,1), (2,1). *)
Lemma reachable_two_moves :
  reachable (mkState (mkBoard 1 1 2 0 2 0 0 0 0) 1 false None).
Proof.
  apply (reachable_frame (mkState (mkBoard 1 0 0 0 2 0 0 0 0) 1 false None) [click_cell I0 I1]);
    [apply (reachable_frame init_state [click_cell I0 I0]); [constructor|]|];
    vm_compute; reflexivity.
Qed.

Lemma reachable_three_moves :
  reachable (mkState (mkBoard 1 1 2 2 2 0 0 1 0) 1 false None).
Proof.
  apply (reachable_frame _ [click_cell I2 I1] _ reachable_two_moves); vm_compute; reflexivity.
Qed.

(** The game where the human plays (0,0), (0,1), (1,0) and loses. *)
Lemma reachable_ai_win :
  reachable (mkState (mkBoard 1 1 2 1 2 0 2 0 0) 2 true (Some 2%Z)).
Proof. apply (reachable_frame _ [click_cell I1 I0] _ reachable_two_moves); vm_compute; reflexivity. Qed.

Lemma forced_win_kept_witness :
  let s := mkState (mkBoard 1 1 2 2 2 0 0 1 0) 1 false None in
  let s' := mkState (mkBoard 1 1 2 2 2 2 1 1 0) 2 true (Some 2%Z) in
  reachable s /\ forced_win s /\ plays s s' /\ game_over s' = true /\ winner s' = Some 2%Z.
Proof.
  cbv zeta.
  assert (F : forced_win (mkState (mkBoard 1 1 2 2 2 0 0 1 0) 1 false None))
    by (split; [reflexivity|vm_compute; reflexivity]).
  assert (P : plays (mkState (mkBoard 1 1 2 2 2 0 0 1 0) 1 false None)
                    (mkState (mkBoard 1 1 2 2 2 2 1 1 0) 2 true (Some 2%Z)))
    by (apply (plays_step _ [click_cell I2 I0] (mkState (mkBoard 1 1 2 2 2 2 1 1 0) 2 true (Some 2%Z)));
        [reflexivity|vm_compute; reflexivity|constructor]).
  split; [exact reachable_three_moves|split; [exact F|split; [exact P|split; [reflexivity|]]]].
  exact (forced_win_kept _ _ reachable_three_moves F P eq_refl).
Defined.

End Controller.
