(* ===== verification/Clicks.v ===== *)
(** * Clicks: from a pixel position to a cell of the array

    The human's move in [main] (src/project_mini.py lines 194-198) turns
    [event.pos] into numpy indices by [// SQUARE_SIZE] and indexes the
    array with them ([Controller.np_index]: [-3 .. -1] count from the
    end, anything outside [-3 .. 2] raises [IndexError]).  This file
    collects what that mapping does to the click branch of
    [Controller.handle_event]: inside the window a click selects the cell
    whose square contains it and never raises; an occupied cell is
    ignored; a free one is marked for the human; outside the window numpy
    either raises [IndexError] or wraps to a cell counted from the end. *)

From Stdlib Require Import ZArith List Bool Lia.
From S2P Require Import Prelude Board Minimax Game.
Import ListNotations BoardModel Search Controller.
Open Scope st_scope.

Module Clicks.

#[local] Ltac Zify.zify_post_hook ::= Z.div_mod_to_equations.

(** A click inside the window. *)
Definition click_in_window (ev : event) : Prop :=
  match ev with
  | MOUSEBUTTONDOWN (x, y) => (0 <= x < WIDTH /\ 0 <= y < HEIGHT)%Z
  | _ => True
  end.

(** ** Indices of a pixel coordinate *)

(** [// SQUARE_SIZE] maps every coordinate of a cell's square to its index. *)
Lemma np_index_range i x :
  (SQUARE_SIZE * idx_Z i <= x < SQUARE_SIZE * (idx_Z i + 1))%Z ->
  np_index (x / SQUARE_SIZE) = Some i.
Proof.
  change SQUARE_SIZE with 200%Z; intros Hx.
  assert (D : (x / 200 = idx_Z i)%Z) by lia.
  rewrite D; destruct i; reflexivity.
Qed.

Lemma idx_Z_range i : (0 <= idx_Z i <= 2)%Z.
Proof. destruct i; cbn; lia. Qed.

(** A coordinate inside the window selects the cell whose square, as
    [draw_figures] draws it, contains the point. *)
Lemma np_index_in_window x :
  (0 <= x < WIDTH)%Z ->
  exists i, np_index (x / SQUARE_SIZE) = Some i
    /\ (SQUARE_SIZE * idx_Z i <= x < SQUARE_SIZE * (idx_Z i + 1))%Z.
Proof.
  intros Hx; change SQUARE_SIZE with 200%Z; unfold WIDTH in Hx.
  assert (E : (x / 200 = 0 \/ x / 200 = 1 \/ x / 200 = 2)%Z) by lia.
  destruct E as [E|[E|E]]; rewrite E; eexists; (split; [reflexivity|cbn; lia]).
Qed.

Lemma idx_of_Z_some i j : idx_of_Z i = Some j -> idx_Z j = i.
Proof.
  intros H; destruct i as [|[p|p|]|p]; cbn in H; try discriminate;
    [injection H as <-; reflexivity|destruct p; try discriminate; injection H as <-; reflexivity
    |injection H as <-; reflexivity].
Qed.

(** numpy raises exactly outside [-3 .. 2]. *)
Lemma np_index_none k : np_index k = None <-> (k < -3 \/ 3 <= k)%Z.
Proof.
  split.
  - intros E; destruct (Z_lt_le_dec k (-3)) as [L|L]; [left; exact L|right].
    destruct (Z_lt_le_dec k 3) as [U|U]; [exfalso|exact U].
    assert (C : (k = -3 \/ k = -2 \/ k = -1 \/ k = 0 \/ k = 1 \/ k = 2)%Z) by lia.
    destruct C as [-> | [-> | [-> | [-> | [-> | ->]]]]]; discriminate.
  - intros H; destruct (np_index k) as [i|] eqn:E; [exfalso|reflexivity].
    unfold np_index in E; pose proof (idx_Z_range i).
    destruct (Z.ltb_spec k 0); apply idx_of_Z_some in E; lia.
Qed.

(** C14: a click inside the 600x600 window never makes numpy raise
    [IndexError]: [pos // SQUARE_SIZE] is always 0, 1 or 2. *)
Theorem clicks_in_window_no_index_error s evs :
  Forall click_in_window evs -> frame s evs <> IndexError.
Proof.
  unfold frame; intros F.
  assert (handle_events s evs <> IndexError) as H.
  { revert s; induction F as [|ev evs Hev F IH]; intros s; cbn [handle_events]; [discriminate|].
    destruct ev as [|key|[x y]|]; cbn [handle_event]; rewrite ?reset_game_run;
      try (destruct_matches; solve [discriminate|apply IH]).
    destruct Hev as [Hx Hy].
    destruct (np_index_in_window x Hx) as (c & -> & _), (np_index_in_window y Hy) as (r & -> & _).
    destruct_matches; solve [discriminate|apply IH]. }
  destruct (handle_events s evs); auto; apply ai_turn_not_index_error.
Qed.

Lemma clicks_in_window_no_index_error_witness :
  Forall click_in_window [MOUSEBUTTONDOWN (599, 0)%Z]
  /\ frame init_state [MOUSEBUTTONDOWN (599, 0)%Z] <> IndexError.
Proof.
  assert (F : Forall click_in_window [MOUSEBUTTONDOWN (599, 0)%Z])
    by (repeat constructor; cbn; lia).
  split; [exact F|apply (clicks_in_window_no_index_error init_state _ F)].
Defined.

(** C15: a click on an occupied cell is ignored: the state is unchanged. *)
Theorem occupied_click_ignored s x y r c :
  np_index (y / SQUARE_SIZE) = Some r -> np_index (x / SQUARE_SIZE) = Some c ->
  get (board_of s) r c <> 0%Z ->
  handle_event s (MOUSEBUTTONDOWN (x, y)) = Running s.
Proof.
  intros Hr Hc Hocc; cbn [handle_event]; rewrite Hr, Hc.
  unfold available_square; destruct (Z.eqb_spec (get (board_of s) r c) 0); [contradiction|].
  destruct (_ && _); reflexivity.
Qed.

Lemma occupied_click_ignored_witness :
  let s := mkState (mkBoard 1 0 0 0 2 0 0 0 0) 1 false None in
  np_index (350 / SQUARE_SIZE) = Some I1 /\ np_index (250 / SQUARE_SIZE) = Some I1
  /\ get (board_of s) I1 I1 <> 0%Z
  /\ handle_event s (MOUSEBUTTONDOWN (250, 350)%Z) = Running s.
Proof.
  cbv zeta; split; [reflexivity|split; [reflexivity|split; [discriminate|]]].
  apply (occupied_click_ignored _ 250 350 I1 I1); [reflexivity|reflexivity|discriminate].
Defined.

(** C11: a click inside the window, on the human's turn of a running game,
    on a free cell marks that cell for the human: the cell is the one
    whose drawn square contains the point, the game ends exactly when the
    mark wins or fills the board, and otherwise the turn passes to the
    AI. *)
Theorem free_click_marks_cell s x y :
  game_over s = false -> player s = 1%Z ->
  (0 <= x < WIDTH)%Z -> (0 <= y < HEIGHT)%Z ->
  exists r c s',
    (SQUARE_SIZE * idx_Z r <= y < SQUARE_SIZE * (idx_Z r + 1))%Z
    /\ (SQUARE_SIZE * idx_Z c <= x < SQUARE_SIZE * (idx_Z c + 1))%Z
    /\ (get (board_of s) r c = 0%Z ->
        handle_event s (MOUSEBUTTONDOWN (x, y)) = Running s'
        /\ board_of s' = set (board_of s) r c 1
        /\ (game_over s' = true <->
            check_win (board_of s') 1 = true \/ is_board_full (board_of s') = true)
        /\ (game_over s' = false -> player s' = 2%Z)).
Proof.
  intros Ov P Hx Hy.
  destruct (np_index_in_window x Hx) as (c & Ec & Bc), (np_index_in_window y Hy) as (r & Er & Br).
  set (b := set (board_of s) r c 1).
  exists r, c, (if check_win b 1 then mkState b 1 true (Some 1%Z)
                else if is_board_full b then mkState b 1 true (Some 0%Z)
                else mkState b 2 false (winner s)).
  split; [exact Br|split; [exact Bc|intros E]].
  unfold handle_event; cbv zeta; rewrite Ov, P, Er, Ec.
  unfold available_square, mark_square; rewrite E; cbn [negb andb Z.eqb Pos.eqb].
  fold b; destruct (check_win b 1) eqn:W, (is_board_full b) eqn:F; cbn [board_of game_over player];
    (split; [reflexivity|split; [reflexivity|]]); rewrite ?W, ?F; intuition congruence.
Qed.

Lemma free_click_marks_cell_witness :
  game_over init_state = false /\ player init_state = 1%Z
  /\ (0 <= 350 < WIDTH)%Z /\ (0 <= 250 < HEIGHT)%Z
  /\ exists r c s',
    (SQUARE_SIZE * idx_Z r <= 250 < SQUARE_SIZE * (idx_Z r + 1))%Z
    /\ (SQUARE_SIZE * idx_Z c <= 350 < SQUARE_SIZE * (idx_Z c + 1))%Z
    /\ (get (board_of init_state) r c = 0%Z ->
        handle_event init_state (MOUSEBUTTONDOWN (350, 250)%Z) = Running s'
        /\ board_of s' = set (board_of init_state) r c 1
        /\ (game_over s' = true <->
            check_win (board_of s') 1 = true \/ is_board_full (board_of s') = true)
        /\ (game_over s' = false -> player s' = 2%Z)).
Proof.
  assert (B : (0 <= 350 < WIDTH)%Z /\ (0 <= 250 < HEIGHT)%Z) by (unfold WIDTH, HEIGHT; lia).
  destruct B as [Bx By].
  split; [reflexivity|split; [reflexivity|split; [exact Bx|split; [exact By|]]]].
  apply (free_click_marks_cell init_state 350 250); [reflexivity|reflexivity|exact Bx|exact By].
Defined.

(** C29: the error path of a click: on the human's turn of a running game,
    a click in a column of the window makes numpy raise [IndexError]
    exactly when it lies more than a window height above the window or
    below its bottom edge; within one window height above it numpy wraps
    the negative row around and the click is handled. *)
Theorem click_index_error s x y :
  game_over s = false -> player s = 1%Z -> (0 <= x < WIDTH)%Z ->
  (handle_event s (MOUSEBUTTONDOWN (x, y)) = IndexError <-> (y < - HEIGHT \/ HEIGHT <= y)%Z).
Proof.
  intros Ov P Hx; destruct (np_index_in_window x Hx) as (c & Ec & _).
  assert (Hy : (y < - HEIGHT \/ HEIGHT <= y)%Z
               <-> (y / SQUARE_SIZE < -3 \/ 3 <= y / SQUARE_SIZE)%Z)
    by (change SQUARE_SIZE with 200%Z; unfold HEIGHT; lia).
  rewrite Hy, <- np_index_none.
  unfold handle_event; cbv zeta; rewrite Ov, P, Ec; cbn [negb andb Z.eqb Pos.eqb].
  destruct (np_index (y / SQUARE_SIZE)) as [r|]; [|split; reflexivity].
  split; [|discriminate]; destruct_matches; discriminate.
Qed.

Lemma click_index_error_witness :
  game_over init_state = false /\ player init_state = 1%Z /\ (0 <= 100 < WIDTH)%Z
  /\ (handle_event init_state (MOUSEBUTTONDOWN (100, 700)%Z) = IndexError
      <-> (700 < - HEIGHT \/ HEIGHT <= 700)%Z).
Proof.
  assert (B : (0 <= 100 < WIDTH)%Z) by (unfold WIDTH; lia).
  split; [reflexivity|split; [reflexivity|split; [exact B|]]].
  exact (click_index_error init_state 100 700 eq_refl eq_refl B).
Defined.

End Clicks.
