(* ===== verification/Display.v ===== *)
(** * Presentation: what the program draws

    The drawing code of src/project_mini.py (lines 10-33, 39-62, 148-173,
    176-225) writes to the pygame display surface [screen]; nothing it
    draws is read back.  The display is modelled as the ordered log of the
    pygame calls made on it ([screen], a list of [draw_call]), extended by
    [emit] in the store monad of [Prelude]: [draw_lines], [draw_figures]
    (one [pygame.draw] call per O, two per X), [show_winner] (the overlay,
    the message, the restart hint), the screen half of [reset_game]
    ([reset_screen]), and [frame_io], one iteration of [main]'s loop with
    its drawing: the events (with the redraw of a restart), the AI block,
    [draw_figures], [show_winner] when the game is over, and
    [pygame.display.update()].  The size pygame's font engine gives a
    rendered text is not fixed by the program: it is the pair of Section
    variables [get_width] and [get_height].
    The drawing layer never fails and runs [Controller.frame] unchanged
    ([frame_io_run], by construction).  Theorems: [draw_figures] draws one circle
    per human mark and two lines per AI mark; every pixel of a drawn figure
    lies in the cell whose mark it shows, so a click on it selects that
    cell; since the last clear the screen holds the grid and the figures
    of exactly the current marks; the message names the real outcome and
    is never "You Win!"; the texts are centred inside the window; the grid
    lines lie exactly where a click changes cell; R redraws the opening
    display; on a finished game every frame adds one more translucent
    overlay. *)

From Stdlib Require Import String ZArith List Bool Lia Classes.EquivDec.
From S2P Require Import Prelude Board Minimax Game Clicks.
Import ListNotations BoardModel Search Controller Clicks.
Open Scope st_scope.

Module Presentation.

#[local] Ltac Zify.zify_post_hook ::= Z.div_mod_to_equations.

(** [LINE_WIDTH = 15]; [CIRCLE_RADIUS = SQUARE_SIZE // 3];
    [CROSS_WIDTH = 25]; [SPACE = SQUARE_SIZE // 4]. *)
Definition LINE_WIDTH : Z := 15.
Definition CIRCLE_RADIUS : Z := SQUARE_SIZE / 3.
Definition CROSS_WIDTH : Z := 25.
Definition SPACE : Z := SQUARE_SIZE / 4.

(** An RGB colour and the colours of the module. *)
Definition color : Type := (Z * Z * Z)%type.
Definition BG_COLOR : color := (28, 170, 156)%Z.
Definition LINE_COLOR : color := (23, 145, 135)%Z.
Definition CIRCLE_COLOR : color := (239, 231, 200)%Z.
Definition CROSS_COLOR : color := (66, 66, 66)%Z.
Definition TEXT_COLOR : color := (255, 255, 255)%Z.
Definition WIN_COLOR : color := (255, 215, 0)%Z.

(** [pygame.font.SysFont(name, size)] *)
Record sysfont : Type := SysFont { font_name : string; font_size : Z }.
Definition font : sysfont := SysFont "Arial" 40.
Definition restart_font : sysfont := SysFont "Arial" 30.

(** The surfaces the program blits: [f.render(text, antialias, colour)],
    and [pygame.Surface(size, pygame.SRCALPHA)] after [fill(rgba)]. *)
Inductive surface : Type :=
| Rendered (f : sysfont) (text : string) (antialias : bool) (c : color)
| Overlay (size : Z * Z) (rgba : Z * Z * Z * Z).

(** The calls on the display surface, in the order they are made. *)
Inductive draw_call : Type :=
| Fill (c : color)                                  (* screen.fill(c) *)
| Line (c : color) (start stop : Z * Z) (width : Z) (* pygame.draw.line *)
| Circle (c : color) (center : Z * Z) (radius width : Z) (* pygame.draw.circle *)
| Blit (src : surface) (dest : Z * Z)               (* screen.blit *)
| Update.                                           (* pygame.display.update() *)

(** The display, as the log of the calls made on it. *)
Abbreviation screen := (list draw_call).

Definition emit (d : draw_call) : St screen unit := modify (fun sc => sc ++ [d]).

(** The window [pygame.display.set_mode((WIDTH, HEIGHT))] opens, with the
    title [pygame.display.set_caption(..)] gives it. *)
Record window : Type := Window { mode : Z * Z; caption : string }.

(** The set-up of the module: [pygame.init()] (it draws nothing), the
    window, then [screen.fill(BG_COLOR)]. *)
Definition setup : window * screen :=
  (Window (WIDTH, HEIGHT) "Unbeatable Tic-Tac-Toe", [Fill BG_COLOR]).

Definition setup_screen : screen := snd setup.

(** [draw_lines()]: two horizontal, then two vertical grid lines. *)
Definition draw_lines : St screen unit :=
  emit (Line LINE_COLOR (0, SQUARE_SIZE) (WIDTH, SQUARE_SIZE) LINE_WIDTH)%Z ;;
  emit (Line LINE_COLOR (0, 2 * SQUARE_SIZE) (WIDTH, 2 * SQUARE_SIZE) LINE_WIDTH)%Z ;;
  emit (Line LINE_COLOR (SQUARE_SIZE, 0) (SQUARE_SIZE, HEIGHT) LINE_WIDTH)%Z ;;
  emit (Line LINE_COLOR (2 * SQUARE_SIZE, 0) (2 * SQUARE_SIZE, HEIGHT) LINE_WIDTH)%Z.

(** The body of the loops of [draw_figures()] for one cell: an O for the
    human, an X of two lines for the AI ([int(..)] is the identity on the
    ints it is given). *)
Definition draw_cell (b : board) (row col : idx) : St screen unit :=
  let c := idx_Z col in
  let r := idx_Z row in
  if (get b row col =? 1)%Z then
    emit (Circle CIRCLE_COLOR
            (c * SQUARE_SIZE + SQUARE_SIZE / 2, r * SQUARE_SIZE + SQUARE_SIZE / 2)
            CIRCLE_RADIUS LINE_WIDTH)%Z
  else if (get b row col =? 2)%Z then
    emit (Line CROSS_COLOR
            (c * SQUARE_SIZE + SPACE, r * SQUARE_SIZE + SQUARE_SIZE - SPACE)
            (c * SQUARE_SIZE + SQUARE_SIZE - SPACE, r * SQUARE_SIZE + SPACE)
            CROSS_WIDTH)%Z ;;
    emit (Line CROSS_COLOR
            (c * SQUARE_SIZE + SPACE, r * SQUARE_SIZE + SPACE)
            (c * SQUARE_SIZE + SQUARE_SIZE - SPACE, r * SQUARE_SIZE + SQUARE_SIZE - SPACE)
            CROSS_WIDTH)%Z
  else ret tt.

(** [draw_figures()]: [for row in range(3): for col in range(3)]. *)
Definition draw_figures (b : board) : St screen unit :=
  foldM (fun _ row => foldM (fun _ col => draw_cell b row col) range3 tt) range3 tt.

(** Python's [winner == v] on [None] or an int. *)
Definition winner_eq (winner : option Z) (v : Z) : bool :=
  match winner with Some w => (w =? v)%Z | None => false end.

(** [s = pygame.Surface((WIDTH, HEIGHT), pygame.SRCALPHA);
    s.fill((0, 0, 0, 128))] *)
Definition dark_overlay : surface := Overlay (WIDTH, HEIGHT) (0, 0, 0, 128)%Z.

(** The first two statements of [reset_game()]: [screen.fill(BG_COLOR)]
    and [draw_lines()]; the loop that clears the array is
    [Controller.reset_game]. *)
Definition reset_screen : St screen unit :=
  emit (Fill BG_COLOR) ;; draw_lines.

(** The drawing done while one event is handled: [reset_game()] when R
    restarts a finished game (the guard of [Controller.handle_event]). *)
Definition event_draws (s : state) (ev : event) : St screen unit :=
  match ev with
  | KEYDOWN key => if restart_pressed s key then reset_screen else ret tt
  | _ => ret tt
  end.

(** The event loop of a frame with its drawing. *)
Fixpoint handle_events_io (s : state) (evs : list event) : St screen outcome :=
  match evs with
  | [] => ret (Running s)
  | ev :: evs' =>
      event_draws s ev ;;
      match handle_event s ev with
      | Running s' => handle_events_io s' evs'
      | o => ret o
      end
  end.

(** ** Derived notions used by the specifications *)

(** The four grid lines, and the calls [draw_figures] makes for one cell
    and for the whole array (in the order of its loops). *)
Definition grid : screen := out draw_lines.
Definition cell_figures (b : board) (row col : idx) : screen := out (draw_cell b row col).
Definition figures (b : board) : screen :=
  flat_map (fun rc => cell_figures b (fst rc) (snd rc)) all_cells.

Definition is_fill (d : draw_call) : bool :=
  match d with Fill _ => true | _ => false end.
Definition is_shape (d : draw_call) : bool :=
  match d with Line _ _ _ _ | Circle _ _ _ _ => true | _ => false end.
Definition is_circle (d : draw_call) : bool :=
  match d with Circle _ _ _ _ => true | _ => false end.
Definition is_line (d : draw_call) : bool :=
  match d with Line _ _ _ _ => true | _ => false end.
Definition is_overlay (d : draw_call) : bool :=
  match d with Blit (Overlay _ _) _ => true | _ => false end.
Definition no_fill (l : screen) : bool := forallb (fun d => negb (is_fill d)) l.

(** What is on the display: the calls since the last [screen.fill]. *)
Definition since_fill (sc : screen) : screen :=
  fold_left (fun acc d => if is_fill d then [] else acc ++ [d]) sc [].

(** The translucent overlays blitted since the last clear. *)
Definition overlays (sc : screen) : nat := length (filter is_overlay (since_fill sc)).

(** [b'] keeps every mark of [b]. *)
Definition extends (b b' : board) : Prop :=
  forall r c, get b r c <> 0%Z -> get b' r c = get b r c.

(** The pixels a call may paint: a circle stays within its radius (pygame
    draws the ring of width [w] inside it), a line within half its width
    of the box its end points span. *)
Definition in_shape (d : draw_call) (p : Z * Z) : Prop :=
  let (x, y) := p in
  match d with
  | Circle _ (cx, cy) radius _ => (Z.abs (x - cx) <= radius /\ Z.abs (y - cy) <= radius)%Z
  | Line _ (x1, y1) (x2, y2) w =>
      (Z.min x1 x2 - w / 2 <= x <= Z.max x1 x2 + w / 2
       /\ Z.min y1 y2 - w / 2 <= y <= Z.max y1 y2 + w / 2)%Z
  | _ => False
  end.

(** Since the last clear the display holds the grid, and every line or
    circle on it is a grid line or the figure of a mark of [b]. *)
Definition screen_ok (b : board) (sc : screen) : Prop :=
  (forall d, In d (since_fill sc) -> is_shape d = true -> In d grid \/ In d (figures b))
  /\ incl grid (since_fill sc).

Section Drawing.

(** [text.get_width()] and [text.get_height()]: the font engine's metrics. *)
Context (get_width get_height : surface -> Z).

(** [show_winner(winner)] *)
Definition show_winner (winner : option Z) : St screen unit :=
  let text :=
    if winner_eq winner 1 then Rendered font "You Win!" true WIN_COLOR
    else if winner_eq winner 2 then Rendered font "AI Wins!" true WIN_COLOR
    else Rendered font "Draw!" true WIN_COLOR in
  let restart_text := Rendered restart_font "Press R to Restart" true TEXT_COLOR in
  emit (Blit dark_overlay (0, 0))%Z ;;
  emit (Blit text (WIDTH / 2 - get_width text / 2, HEIGHT / 2 - get_height text / 2))%Z ;;
  emit (Blit restart_text (WIDTH / 2 - get_width restart_text / 2, HEIGHT / 2 + 50))%Z.

(** One iteration of [while True] with its drawing: the events, the AI
    block, [draw_figures()], [show_winner(winner)] if the game is over,
    [pygame.display.update()]. *)
Definition frame_io (s : state) (evs : list event) : St screen outcome :=
  o <- handle_events_io s evs ;;
  match o with
  | Running s1 =>
      match ai_turn s1 with
      | Running s2 =>
          draw_figures (board_of s2) ;;
          (if game_over s2 then show_winner (winner s2) else ret tt) ;;
          emit Update ;;
          ret (Running s2)
      | o' => ret o'
      end
  | o' => ret o'
  end.

(** [main()] with its display: [draw_lines()] on the set-up screen, then
    frames. *)
Inductive reachable_io : state -> screen -> Prop :=
| reachable_io_init sc :
    draw_lines setup_screen = Some (tt, sc) -> reachable_io init_state sc
| reachable_io_frame s sc evs s' sc' :
    reachable_io s sc -> frame_io s evs sc = Some (Running s', sc') ->
    reachable_io s' sc'.

(** Frames one after the other, each with its batch of events. *)
Fixpoint frames_io (s : state) (batches : list (list event)) : St screen outcome :=
  match batches with
  | [] => ret (Running s)
  | evs :: rest =>
      o <- frame_io s evs ;;
      match o with
      | Running s' => frames_io s' rest
      | o' => ret o'
      end
  end.

(** ** Each drawing function appends a fixed list of calls *)

Lemma emit_appends d : appends (emit d).
Proof. apply modify_appends. Qed.

Lemma out_emit d : out (emit d) = [d].
Proof. reflexivity. Qed.

#[local] Hint Resolve emit_appends : ttt.

Lemma draw_lines_appends : appends draw_lines.
Proof. unfold draw_lines; auto 8 with ttt. Qed.

Lemma draw_cell_appends b row col : appends (draw_cell b row col).
Proof. unfold draw_cell; destruct_matches; auto with ttt. Qed.

#[local] Hint Resolve draw_lines_appends draw_cell_appends : ttt.

Lemma draw_figures_appends b : appends (draw_figures b).
Proof. unfold draw_figures; auto with ttt. Qed.

Lemma reset_screen_appends : appends reset_screen.
Proof. unfold reset_screen; auto with ttt. Qed.

Lemma event_draws_appends s ev : appends (event_draws s ev).
Proof. destruct ev; cbn [event_draws]; destruct_matches; auto using reset_screen_appends with ttt. Qed.

#[local] Hint Resolve draw_figures_appends reset_screen_appends event_draws_appends : ttt.

Lemma out_draw_figures b : out (draw_figures b) = figures b.
Proof.
  unfold draw_figures; rewrite out_foldM by auto with ttt.
  cbn [range3 flat_map]; rewrite !out_foldM by auto with ttt.
  unfold figures, all_cells, cell_figures; cbn [list_prod range3 flat_map map app fst snd].
  rewrite !app_nil_r, <- !app_assoc; reflexivity.
Qed.

Lemma out_reset_screen : out reset_screen = Fill BG_COLOR :: grid.
Proof. reflexivity. Qed.

(** ** The display since the last clear *)

Lemma since_fill_step l acc :
  no_fill l = true ->
  fold_left (fun acc d => if is_fill d then [] else acc ++ [d]) l acc = acc ++ l.
Proof.
  revert acc; induction l as [|d l IH]; intros acc N; [symmetry; apply app_nil_r|].
  cbn [no_fill forallb] in N; apply andb_true_iff in N as [N1 N2].
  cbn [fold_left]; apply negb_true_iff in N1; rewrite N1, IH by exact N2.
  rewrite <- app_assoc; reflexivity.
Qed.

Lemma since_fill_app sc l : no_fill l = true -> since_fill (sc ++ l) = since_fill sc ++ l.
Proof. intros N; unfold since_fill; rewrite fold_left_app; apply since_fill_step, N. Qed.

Lemma since_fill_clear sc c l : no_fill l = true -> since_fill (sc ++ Fill c :: l) = l.
Proof. intros N; unfold since_fill; rewrite fold_left_app; cbn; apply since_fill_step, N. Qed.

Lemma no_fill_app l1 l2 : no_fill (l1 ++ l2) = no_fill l1 && no_fill l2.
Proof. apply forallb_app. Qed.

#[local] Hint Rewrite no_fill_app : ttt.

Lemma no_fill_figures b : no_fill (figures b) = true.
Proof.
  unfold figures, cell_figures, draw_cell; apply forallb_forall; intros d Hd.
  apply in_flat_map in Hd as ([r c] & _ & Hd); cbn [fst snd] in Hd.
  revert Hd; destruct_matches; cbn; intros Hd; repeat (destruct Hd as [<-|Hd]; [reflexivity|]);
    contradiction.
Qed.

(** ** Figures and marks *)

Lemma in_figures d b : In d (figures b) <-> exists r c, In d (cell_figures b r c).
Proof.
  unfold figures; rewrite in_flat_map; split.
  - intros ([r c] & _ & H); eauto.
  - intros (r & c & H); exists (r, c); split; [apply in_all_cells|exact H].
Qed.

Lemma cell_figures_get b b' r c :
  get b r c = get b' r c -> cell_figures b r c = cell_figures b' r c.
Proof. intros E; unfold cell_figures, draw_cell; rewrite E; reflexivity. Qed.

Lemma cell_figures_empty b r c : get b r c = 0%Z -> cell_figures b r c = [].
Proof. intros E; unfold cell_figures, draw_cell; rewrite E; reflexivity. Qed.

Lemma figures_mono b b' : extends b b' -> incl (figures b) (figures b').
Proof.
  intros X d Hd; apply in_figures in Hd as (r & c & Hd); apply in_figures; exists r, c.
  destruct (Z.eq_dec (get b r c) 0) as [E|E].
  - rewrite (cell_figures_empty b r c E) in Hd; contradiction.
  - rewrite (cell_figures_get b' b r c (X r c E)); exact Hd.
Qed.

Lemma extends_refl b : extends b b.
Proof. intros r c _; reflexivity. Qed.

Lemma extends_set b r c v : get b r c = 0%Z -> extends b (set b r c v).
Proof.
  intros E r' c' N; destruct ((r, c) == (r', c')) as [H|H].
  - injection H as <- <-; contradiction.
  - apply get_set_neq, H.
Qed.

(** ** The frame with its drawing runs the frame of the controller *)

Lemma show_winner_appends w : appends (show_winner w).
Proof. unfold show_winner; auto with ttt. Qed.

#[local] Hint Resolve show_winner_appends : ttt.

(** [show_winner] blits three surfaces and draws no shape. *)
Lemma show_winner_calls w d :
  In d (out (show_winner w)) -> is_shape d = false /\ is_fill d = false.
Proof.
  unfold show_winner; rewrite !out_bind by auto with ttt; rewrite !out_emit.
  cbn; intros H; repeat (destruct H as [<-|H]; [split; reflexivity|]); contradiction.
Qed.

Lemma handle_events_io_run s evs sc :
  exists l, handle_events_io s evs sc = Some (handle_events s evs, sc ++ l).
Proof.
  revert s sc; induction evs as [|ev evs IH]; intros s sc.
  - exists []; rewrite app_nil_r; reflexivity.
  - cbn [handle_events_io handle_events]; unfold bind at 1; rewrite event_draws_appends.
    destruct (handle_event s ev) as [s1| | |];
      [destruct (IH s1 (sc ++ out (event_draws s ev))) as (l & ->);
       exists (out (event_draws s ev) ++ l); rewrite app_assoc; reflexivity
      |exists (out (event_draws s ev)); reflexivity ..].
Qed.

(** The drawing at the end of a frame: figures, the winner if the game
    is over, the update. *)
Lemma frame_draws_run s2 sc :
  exists l, (draw_figures (board_of s2) ;;
             (if game_over s2 then show_winner (winner s2) else ret tt) ;;
             emit Update ;; ret (Running s2)) sc = Some (Running s2, sc ++ l)
  /\ l = figures (board_of s2)
        ++ (if game_over s2 then out (show_winner (winner s2)) else []) ++ [Update].
Proof.
  eexists; split; [|reflexivity].
  unfold bind at 1; rewrite draw_figures_appends, out_draw_figures.
  destruct (game_over s2); unfold bind; [rewrite show_winner_appends|];
    cbn; rewrite <- !app_assoc; reflexivity.
Qed.

Lemma frame_io_run s evs sc :
  exists l, frame_io s evs sc = Some (frame s evs, sc ++ l).
Proof.
  unfold frame_io, frame, bind at 1.
  destruct (handle_events_io_run s evs sc) as (l & ->).
  destruct (handle_events s evs) as [s1| | |]; [|exists l; reflexivity ..].
  destruct (ai_turn s1) as [s2| | |]; [|exists l; reflexivity ..].
  destruct (frame_draws_run s2 (sc ++ l)) as (l' & -> & _).
  exists (l ++ l'); rewrite app_assoc; reflexivity.
Qed.

Lemma reachable_io_reachable s sc : reachable_io s sc -> reachable s.
Proof.
  induction 1 as [sc _|s sc evs s' sc' _ IH H]; [constructor|].
  destruct (frame_io_run s evs sc) as (l & E); rewrite H in E.
  injection E as E _; exact (reachable_frame s evs s' IH (eq_sym E)).
Qed.

(** ** What the display shows *)

Lemma no_fill_show_winner w : no_fill (out (show_winner w)) = true.
Proof.
  apply forallb_forall; intros d Hd.
  destruct (show_winner_calls w d Hd) as [_ ->]; reflexivity.
Qed.

Lemma grid_not_figure b d : In d (figures b) -> ~ In d grid.
Proof.
  intros Hd Hg; apply in_figures in Hd as (r & c & Hd).
  unfold cell_figures, draw_cell in Hd; revert Hd; destruct_matches; cbn; intros Hd;
    cbn in Hg; repeat (destruct Hd as [<-|Hd]); try contradiction;
    repeat (destruct Hg as [Hg|Hg]; [discriminate|]); contradiction.
Qed.

Lemma screen_ok_mono b b' sc : extends b b' -> screen_ok b sc -> screen_ok b' sc.
Proof.
  intros X (H & G); split; [|exact G].
  intros d Hd S; destruct (H d Hd S) as [|F]; [left; assumption|right; apply (figures_mono b b' X), F].
Qed.

Lemma screen_ok_extend b sc l :
  screen_ok b sc -> no_fill l = true ->
  (forall d, In d l -> is_shape d = true -> In d (figures b)) ->
  screen_ok b (sc ++ l).
Proof.
  intros (H & G) N L; unfold screen_ok; rewrite (since_fill_app sc l N); split.
  - intros d Hd S; apply in_app_or in Hd as [Hd|Hd]; [exact (H d Hd S)|right; exact (L d Hd S)].
  - intros d Hd; apply in_or_app; left; exact (G d Hd).
Qed.

Lemma screen_ok_reset sc : screen_ok zeros (sc ++ out reset_screen).
Proof.
  unfold screen_ok; rewrite out_reset_screen, (since_fill_clear sc BG_COLOR grid) by reflexivity.
  split; [intros d Hd _; left; exact Hd|intros d Hd; exact Hd].
Qed.

(** An event keeps every mark, or R restarts: then [reset_game()] clears
    the display and the array. *)
Lemma handle_event_draws s ev s' :
  handle_event s ev = Running s' ->
  (out (event_draws s ev) = out reset_screen /\ board_of s' = zeros)
  \/ (out (event_draws s ev) = [] /\ extends (board_of s) (board_of s')).
Proof.
  intros H; destruct ev as [|key|[x y]|]; cbn [handle_event event_draws] in *.
  - discriminate.
  - destruct (restart_pressed s key); [rewrite reset_game_run in H|];
      injection H as <-; [left|right; split; [|apply extends_refl]]; split; reflexivity.
  - right; split; [reflexivity|].
    destruct (negb (game_over s) && (player s =? 1)%Z); [|injection H as <-; apply extends_refl].
    destruct (np_index (y / SQUARE_SIZE)) as [row|], (np_index (x / SQUARE_SIZE)) as [col|];
      try discriminate.
    destruct (available_square (board_of s) row col) eqn:A; [|injection H as <-; apply extends_refl].
    unfold available_square in A; apply Z.eqb_eq in A.
    destruct (check_win _ _); [|destruct (is_board_full _)]; injection H as <-;
      apply extends_set, A.
  - right; injection H as <-; split; [reflexivity|apply extends_refl].
Qed.

Lemma ai_turn_extends s s' : inv s -> ai_turn s = Running s' -> extends (board_of s) (board_of s').
Proof.
  intros I H; unfold ai_turn in H.
  destruct (negb (game_over s) && (player s =? 2)%Z) eqn:G; [|injection H as <-; apply extends_refl].
  apply andb_true_iff in G as [G1%negb_true_iff _].
  unfold inv in I; rewrite G1 in I; destruct I as (_ & _ & _ & _ & _ & W2 & W1 & Full & _).
  destruct (ai_keeps_value (choose := best_move) (board_of s) W2 W1 Full) as (r & c & R & E & _);
    rewrite R in H.
  destruct (check_win (set (board_of s) r c 2) 2); [|destruct (is_board_full (set (board_of s) r c 2))];
    injection H as <-; apply extends_set, E.
Qed.

Lemma handle_events_io_screen s evs sc s' sc' :
  inv s -> screen_ok (board_of s) sc ->
  handle_events_io s evs sc = Some (Running s', sc') -> inv s' /\ screen_ok (board_of s') sc'.
Proof.
  revert s sc; induction evs as [|ev evs IH]; intros s sc I Ok H; cbn [handle_events_io] in H.
  - injection H as <- <-; split; assumption.
  - unfold bind at 1 in H; rewrite event_draws_appends in H.
    destruct (handle_event s ev) as [s1| | |] eqn:E; [|discriminate ..].
    apply (IH s1 (sc ++ out (event_draws s ev)) (handle_event_inv s ev s1 I E)); [|exact H].
    destruct (handle_event_draws s ev s1 E) as [(-> & ->)|(-> & X)].
    + apply screen_ok_reset.
    + rewrite app_nil_r; exact (screen_ok_mono _ _ _ X Ok).
Qed.

Lemma frame_io_screen s evs sc s' sc' :
  inv s -> screen_ok (board_of s) sc -> frame_io s evs sc = Some (Running s', sc') ->
  inv s' /\ screen_ok (board_of s') sc' /\ incl (figures (board_of s')) (since_fill sc').
Proof.
  intros I Ok H; unfold frame_io, bind at 1 in H.
  destruct (handle_events_io s evs sc) as [[[s1| | |] sc1]|] eqn:E; try discriminate.
  destruct (handle_events_io_screen s evs sc s1 sc1 I Ok E) as (I1 & Ok1).
  destruct (ai_turn s1) as [s2| | |] eqn:A; try discriminate.
  destruct (frame_draws_run s2 sc1) as (l & R & ->); rewrite R in H; injection H as <- <-.
  assert (N : no_fill (figures (board_of s2) ++
                (if game_over s2 then out (show_winner (winner s2)) else []) ++ [Update]) = true)
    by (rewrite !no_fill_app, no_fill_figures; destruct (game_over s2);
        rewrite ?no_fill_show_winner; reflexivity).
  split; [exact (ai_turn_inv s1 s2 I1 A)|split].
  - apply screen_ok_extend; [exact (screen_ok_mono _ _ _ (ai_turn_extends s1 s2 I1 A) Ok1)|exact N|].
    intros d Hd S; apply in_app_or in Hd as [Hd|Hd]; [exact Hd|].
    apply in_app_or in Hd as [Hd|[<-|[]]]; [|discriminate].
    destruct (game_over s2); [|contradiction].
    destruct (show_winner_calls _ d Hd) as [S' _]; congruence.
  - rewrite (since_fill_app sc1 _ N); intros d Hd; apply in_or_app; right; apply in_or_app; left; exact Hd.
Qed.


(** C23: the display always shows the game: since its last clear it holds
    the grid, every line or circle on it is a grid line or the figure of a
    mark the array holds now, and the figure of every mark is on it. *)
Theorem screen_shows_board s sc :
  reachable_io s sc ->
  screen_ok (board_of s) sc /\ incl (figures (board_of s)) (since_fill sc).
Proof.
  intros R; induction R as [sc H|s sc evs s' sc' R IH H].
  - rewrite draw_lines_appends in H; injection H as <-.
    split; [exact (screen_ok_reset [])|intros d Hd; contradiction].
  - destruct IH as [Ok _].
    apply (frame_io_screen s evs sc s' sc' (reachable_inv s (reachable_io_reachable s sc R)) Ok H).
Qed.

(** ** Figures: how many, and where *)

Lemma cell_counts b r c :
  length (filter is_circle (cell_figures b r c)) = (if (get b r c =? 1)%Z then 1 else 0)%nat
  /\ length (filter is_line (cell_figures b r c)) = (if (get b r c =? 2)%Z then 2 else 0)%nat.
Proof.
  unfold cell_figures, draw_cell.
  destruct (Z.eqb_spec (get b r c) 1) as [E1|E1]; [rewrite E1; split; reflexivity|].
  destruct (Z.eqb_spec (get b r c) 2); split; reflexivity.
Qed.

Lemma figures_shape b d : In d (figures b) -> is_circle d = negb (is_line d).
Proof.
  intros Hd; apply in_figures in Hd as (r & c & Hd); revert Hd.
  unfold cell_figures, draw_cell; destruct_matches; cbn; intros Hd;
    repeat (destruct Hd as [<-|Hd]; [reflexivity|]); contradiction.
Qed.

(** C26: [draw_figures] draws one circle for each mark of the human, two
    lines for each mark of the AI, and nothing else. *)
Theorem figures_count b :
  length (filter is_circle (out (draw_figures b))) = count_mark b 1
  /\ length (filter is_line (out (draw_figures b))) = (2 * count_mark b 2)%nat
  /\ length (out (draw_figures b)) = (count_mark b 1 + 2 * count_mark b 2)%nat.
Proof.
  rewrite out_draw_figures; unfold figures, count_mark.
  assert (C : length (filter is_circle (flat_map (fun rc => cell_figures b (fst rc) (snd rc)) all_cells))
              = length (filter (fun rc => get b (fst rc) (snd rc) =? 1)%Z all_cells)).
  { rewrite <- (Nat.mul_1_l (length (filter _ all_cells))).
    apply length_filter_flat_map; intros [r c]; apply cell_counts. }
  assert (L : length (filter is_line (flat_map (fun rc => cell_figures b (fst rc) (snd rc)) all_cells))
              = (2 * length (filter (fun rc => get b (fst rc) (snd rc) =? 2)%Z all_cells))%nat)
    by (apply length_filter_flat_map; intros [r c]; apply cell_counts).
  split; [exact C|split; [exact L|]].
  rewrite (length_filter_partition is_circle is_line), C, L; [reflexivity|].
  apply figures_shape.
Qed.

(** C25: every pixel a figure of [draw_figures] may paint lies in the cell
    whose mark it shows: a circle only over a cell holding 1, a line of a
    cross only over a cell holding 2; so a click anywhere on a drawn figure
    selects the cell of that figure. *)
Theorem figures_in_cells b d :
  In d (out (draw_figures b)) ->
  exists r c,
    ((is_circle d = true /\ get b r c = 1%Z) \/ (is_line d = true /\ get b r c = 2%Z))
    /\ forall x y, in_shape d (x, y) ->
         np_index (y / SQUARE_SIZE) = Some r /\ np_index (x / SQUARE_SIZE) = Some c.
Proof.
  rewrite out_draw_figures; intros Hd; apply in_figures in Hd as (r & c & Hd); exists r, c.
  pose proof (idx_Z_range r); pose proof (idx_Z_range c).
  unfold cell_figures, draw_cell in Hd.
  destruct (Z.eqb_spec (get b r c) 1) as [E1|E1];
    [|destruct (Z.eqb_spec (get b r c) 2) as [E2|E2]]; cbn in Hd;
    repeat destruct Hd as [<-|Hd]; try contradiction;
    (split; [auto|intros x y S; cbn in S; split; apply np_index_range; change SQUARE_SIZE with 200%Z; lia]).
Qed.

(** ** The grid and the cells a click selects *)

Lemma out_draw_lines :
  out draw_lines =
    [Line LINE_COLOR (0, 200) (600, 200) LINE_WIDTH; Line LINE_COLOR (0, 400) (600, 400) LINE_WIDTH;
     Line LINE_COLOR (200, 0) (200, 600) LINE_WIDTH; Line LINE_COLOR (400, 0) (400, 600) LINE_WIDTH]%Z.
Proof. reflexivity. Qed.

(** Inside the window the index [// SQUARE_SIZE] selects changes between
    [p - 1] and [p] only at [200] and [400]. *)
Lemma np_index_step p :
  (0 < p < WIDTH)%Z ->
  (np_index ((p - 1) / SQUARE_SIZE) <> np_index (p / SQUARE_SIZE) <-> p = 200%Z \/ p = 400%Z).
Proof.
  unfold WIDTH; intros Hp.
  assert (C : (0 < p < 200 \/ p = 200 \/ 200 < p < 400 \/ p = 400 \/ 400 < p < 600)%Z) by lia.
  destruct C as [C|[->|[C|[->|C]]]];
    [rewrite (np_index_range I0 (p - 1)), (np_index_range I0 p)
    |rewrite (np_index_range I0 (200 - 1)), (np_index_range I1 200)
    |rewrite (np_index_range I1 (p - 1)), (np_index_range I1 p)
    |rewrite (np_index_range I1 (400 - 1)), (np_index_range I2 400)
    |rewrite (np_index_range I2 (p - 1)), (np_index_range I2 p)];
    try (change SQUARE_SIZE with 200%Z; cbn [idx_Z]; lia);
    split; try (intros N; contradiction (N eq_refl)); try lia; try discriminate.
Qed.

Lemma in_lines p1 p2 :
  In (Line LINE_COLOR p1 p2 LINE_WIDTH) (out draw_lines) <->
  (p1 = (0, 200) /\ p2 = (600, 200) \/ p1 = (0, 400) /\ p2 = (600, 400)
   \/ p1 = (200, 0) /\ p2 = (200, 600) \/ p1 = (400, 0) /\ p2 = (400, 600))%Z.
Proof.
  rewrite out_draw_lines; cbn [In]; split.
  - intros H; repeat (destruct H as [H|H]; [injection H as <- <-; tauto|]); contradiction.
  - intros [[-> ->]|[[-> ->]|[[-> ->]|[-> ->]]]]; tauto.
Qed.

(** C30: the grid [draw_lines] draws is where a click changes cell: inside
    the window, the column a click selects changes between the pixels
    [p - 1] and [p] exactly when a vertical grid line spanning the whole
    window height is drawn at [p], and the row exactly when a horizontal
    one spanning its width is drawn there. *)
Theorem grid_is_cell_boundaries p :
  (0 < p < fst (mode (fst setup)))%Z ->
  (np_index ((p - 1) / SQUARE_SIZE) <> np_index (p / SQUARE_SIZE)
   <-> In (Line LINE_COLOR (p, 0) (p, snd (mode (fst setup))) LINE_WIDTH) (out draw_lines))%Z
  /\ (np_index ((p - 1) / SQUARE_SIZE) <> np_index (p / SQUARE_SIZE)
   <-> In (Line LINE_COLOR (0, p) (fst (mode (fst setup)), p) LINE_WIDTH) (out draw_lines))%Z.
Proof.
  cbn [setup fst snd mode]; intros Hp; rewrite (np_index_step p Hp), !in_lines.
  unfold WIDTH, HEIGHT; rewrite !pair_equal_spec; split; lia.
Qed.

(** ** The end-of-game screen *)

Lemma show_winner_out w :
  let text := if winner_eq w 1 then Rendered font "You Win!" true WIN_COLOR
              else if winner_eq w 2 then Rendered font "AI Wins!" true WIN_COLOR
              else Rendered font "Draw!" true WIN_COLOR in
  let restart_text := Rendered restart_font "Press R to Restart" true TEXT_COLOR in
  out (show_winner w) =
    [Blit dark_overlay (0, 0);
     Blit text (WIDTH / 2 - get_width text / 2, HEIGHT / 2 - get_height text / 2);
     Blit restart_text (WIDTH / 2 - get_width restart_text / 2, HEIGHT / 2 + 50)]%Z.
Proof. reflexivity. Qed.

(** C24: the message of a finished game names its real outcome: it is
    blitted right after the overlay and reads "AI Wins!" exactly when the
    AI has three in a row, "Draw!" otherwise, and then the array is full
    and the human has no line either. *)
Theorem message_names_outcome s sc :
  reachable s -> game_over s = true ->
  exists pos rest,
    show_winner (winner s) sc =
      Some (tt, sc ++ Blit dark_overlay (0, 0)%Z
                   :: Blit (Rendered font (if check_win (board_of s) 2 then "AI Wins!" else "Draw!")
                              true WIN_COLOR) pos
                   :: rest)
    /\ (check_win (board_of s) 2 = false ->
        is_board_full (board_of s) = true /\ check_win (board_of s) 1 = false).
Proof.
  intros R Ov; pose proof (reachable_inv s R) as I; pose proof (reachable_winner_ok s R) as (Wk2 & Wk0).
  unfold inv in I; rewrite Ov in I; destruct I as (_ & _ & _ & _ & [Wn|Wn]).
  - destruct (Wk0 Wn) as (F & W2 & W1); rewrite show_winner_appends, show_winner_out, Wn, W2.
    do 2 eexists; split; [reflexivity|intros _; split; assumption].
  - rewrite show_winner_appends, show_winner_out, Wn, (Wk2 Wn).
    do 2 eexists; split; [reflexivity|discriminate].
Qed.

Lemma Blit_inj t t' p p' : Blit t p = Blit t' p' -> t = t' /\ p = p'.
Proof. intros H; injection H; auto. Qed.

(** C28: the message and the restart hint lie inside the window, centred
    horizontally to a pixel, whenever the font renders them no wider than
    the window and at most 250 pixels high. *)
Theorem texts_inside_window w t x y :
  In (Blit t (x, y)) (out (show_winner w)) -> t <> dark_overlay ->
  (0 <= get_width t <= WIDTH)%Z -> (0 <= get_height t <= HEIGHT / 2 - 50)%Z ->
  (0 <= x /\ x + get_width t <= WIDTH /\ WIDTH <= 2 * x + get_width t <= WIDTH + 1
   /\ 0 <= y /\ y + get_height t <= HEIGHT)%Z.
Proof.
  rewrite show_winner_out; intros Hd Nt Hw Hh.
  change (WIDTH / 2)%Z with 300%Z in *; change (HEIGHT / 2)%Z with 300%Z in *.
  unfold WIDTH, HEIGHT in *.
  destruct Hd as [Hd|[Hd|[Hd|[]]]]; apply Blit_inj in Hd as [<- Hp];
    apply pair_equal_spec in Hp as [<- <-]; [contradiction|..];
    Z.div_mod_to_equations; lia.
Qed.

(** Each frame on a finished game draws the figures, the end screen and
    the update, and changes nothing of the game. *)
Lemma frame_io_idle s sc :
  game_over s = true ->
  frame_io s [] sc
  = Some (Running s, sc ++ figures (board_of s) ++ out (show_winner (winner s)) ++ [Update]).
Proof.
  intros Ov; unfold frame_io; cbn [handle_events_io]; rewrite bind_ret.
  unfold ai_turn; rewrite Ov; cbn [negb andb].
  destruct (frame_draws_run s sc) as (l & -> & ->); rewrite Ov; reflexivity.
Qed.

Lemma show_winner_overlay w : length (filter is_overlay (out (show_winner w))) = 1%nat.
Proof. rewrite show_winner_out; destruct (winner_eq w 1), (winner_eq w 2); reflexivity. Qed.

Lemma figures_no_overlay b : filter is_overlay (figures b) = [].
Proof.
  apply nil_iff_no_elem; intros d Hd; apply filter_In in Hd as [Hd O].
  apply in_figures in Hd as (r & c & Hd); revert Hd O.
  unfold cell_figures, draw_cell; destruct_matches; cbn; intros Hd;
    repeat (destruct Hd as [<-|Hd]; [discriminate|]); contradiction.
Qed.

(** C27: a finished game's display is never cleared: every frame without
    events blits one more half-transparent overlay over the last and
    neither clears nor redraws the grid, so after [n] frames the grid lies
    under [n] more overlays and fades to black. *)
Theorem overlay_accumulates s sc n :
  game_over s = true ->
  exists l, frames_io s (repeat [] n) sc = Some (Running s, sc ++ l)
    /\ overlays (sc ++ l) = (overlays sc + n)%nat
    /\ (forall d, In d l -> ~ In d grid).
Proof.
  intros Ov; revert sc; induction n as [|n IH]; intros sc.
  - exists []; rewrite app_nil_r; split; [reflexivity|split; [lia|intros d []]].
  - set (l1 := figures (board_of s) ++ out (show_winner (winner s)) ++ [Update]).
    assert (N : no_fill l1 = true)
      by (unfold l1; rewrite !no_fill_app, no_fill_figures, no_fill_show_winner; reflexivity).
    destruct (IH (sc ++ l1)) as (l & E & Ov' & G).
    exists (l1 ++ l); cbn [repeat frames_io]; unfold bind at 1; rewrite (frame_io_idle s sc Ov).
    fold l1; rewrite E, app_assoc; split; [reflexivity|split].
    + rewrite Ov'; unfold overlays; rewrite (since_fill_app sc l1 N), filter_app, length_app.
      unfold l1; rewrite !filter_app, !length_app, figures_no_overlay, show_winner_overlay; cbn; lia.
    + intros d Hd; apply in_app_or in Hd as [Hd|Hd]; [|exact (G d Hd)].
      unfold l1 in Hd; apply in_app_or in Hd as [Hd|Hd]; [exact (grid_not_figure _ d Hd)|].
      rewrite show_winner_out in Hd; cbn in Hd; intros Hg; cbn in Hg;
        repeat (destruct Hd as [<-|Hd]); try contradiction;
        repeat (destruct Hg as [Hg|Hg]; [discriminate|]); contradiction.
Qed.

(** ** Restart *)

(** The first frame of [main] without events adds only the update: the
    empty array has no figure. *)
Lemma frame_io_opening sc : frame_io init_state [] sc = Some (Running init_state, sc ++ [Update]).
Proof.
  unfold frame_io; cbn [handle_events_io]; rewrite bind_ret.
  replace (ai_turn init_state) with (Running init_state) by reflexivity.
  destruct (frame_draws_run init_state sc) as (l & R & El); rewrite R, El; reflexivity.
Qed.

Lemma handle_events_io_restart s sc :
  game_over s = true ->
  handle_events_io s [KEYDOWN K_r] sc = Some (Running init_state, sc ++ out reset_screen).
Proof.
  intros Ov; assert (Rp : restart_pressed s K_r = true)
    by (unfold restart_pressed; rewrite Ov; reflexivity).
  cbn [handle_events_io]; unfold bind; rewrite event_draws_appends.
  cbn [handle_event event_draws]; rewrite Rp, reset_game_run; reflexivity.
Qed.

(** C31: pressing R on a finished game redraws exactly the opening display:
    the frame restarts the game, and the display since its last clear is
    then the same as after the first frame [main] runs on its set-up
    screen (the grid and the update). *)
Theorem restart_redraws_opening s sc :
  game_over s = true ->
  exists sc',
    frame_io s [KEYDOWN K_r] sc = Some (Running init_state, sc')
    /\ since_fill sc' = since_fill (snd setup ++ out draw_lines ++ [Update])
    /\ frame_io init_state [] (snd setup ++ out draw_lines)
       = Some (Running init_state, snd setup ++ out draw_lines ++ [Update]).
Proof.
  intros Ov; exists ((sc ++ out reset_screen) ++ [Update]); split; [|split].
  - rewrite <- frame_io_opening; unfold frame_io, bind at 1.
    rewrite (handle_events_io_restart s sc Ov); reflexivity.
  - rewrite out_reset_screen, <- app_assoc, <- app_comm_cons.
    rewrite (since_fill_clear sc BG_COLOR (grid ++ [Update])) by reflexivity; reflexivity.
  - rewrite frame_io_opening, <- app_assoc; reflexivity.
Qed.

(** ** The display never congratulates the human *)

Lemma event_draws_calls s ev d :
  In d (out (event_draws s ev)) -> is_shape d = true \/ is_fill d = true.
Proof.
  destruct ev; cbn [event_draws]; destruct_matches; cbn; intros H;
    repeat (destruct H as [<-|H]; [auto|]); contradiction.
Qed.

(** The events of a frame draw only the clear and the grid of a restart. *)
Lemma handle_events_io_calls s evs sc o sc' :
  handle_events_io s evs sc = Some (o, sc') ->
  exists l, sc' = sc ++ l /\ forall d, In d l -> is_shape d = true \/ is_fill d = true.
Proof.
  revert s sc; induction evs as [|ev evs IH]; intros s sc H; cbn [handle_events_io] in H.
  - injection H as _ <-; exists []; rewrite app_nil_r; split; [reflexivity|intros d []].
  - unfold bind at 1 in H; rewrite event_draws_appends in H.
    assert (L : forall d, In d (out (event_draws s ev)) -> is_shape d = true \/ is_fill d = true)
      by apply event_draws_calls.
    destruct (handle_event s ev) as [s1| | |];
      [destruct (IH s1 _ H) as (l & -> & L')|injection H as _ <- ..];
      [exists (out (event_draws s ev) ++ l); rewrite app_assoc|exists (out (event_draws s ev)) ..];
      (split; [reflexivity|]); intros d Hd;
      try (apply in_app_or in Hd as [Hd|Hd]); auto.
Qed.

(** C22: the display never tells the human "You Win!": whatever the human
    does, no frame of [main] blits that message. *)
Theorem never_shows_you_win s sc :
  reachable_io s sc -> forall f a c pos, ~ In (Blit (Rendered f "You Win!" a c) pos) sc.
Proof.
  induction 1 as [sc H|s sc evs s' sc' R IH H]; intros f a c pos Hin.
  - rewrite draw_lines_appends in H; injection H as <-; cbn in Hin;
      repeat (destruct Hin as [Hin|Hin]; [discriminate|]); contradiction.
  - assert (I' : inv s').
    { destruct (frame_io_run s evs sc) as (l & E); rewrite H in E; injection E as E _.
      exact (frame_inv s evs s' (reachable_inv s (reachable_io_reachable s sc R)) (eq_sym E)). }
    unfold frame_io, bind at 1 in H.
    destruct (handle_events_io s evs sc) as [[o sc1]|] eqn:E; [|discriminate].
    destruct (handle_events_io_calls s evs sc o sc1 E) as (l0 & -> & L0).
    destruct o as [s1| | |]; try discriminate.
    destruct (ai_turn s1) as [s2| | |]; try discriminate.
    destruct (frame_draws_run s2 (sc ++ l0)) as (l & R2 & ->); rewrite R2 in H.
    injection H as <- <-.
    apply in_app_or in Hin as [Hin|Hin];
      [apply in_app_or in Hin as [Hin|Hin];
       [exact (IH f a c pos Hin)|destruct (L0 _ Hin) as [X|X]; discriminate]|].
    apply in_app_or in Hin as [Hin|Hin]; [pose proof (figures_shape _ _ Hin) as X; discriminate X|].
    apply in_app_or in Hin as [Hin|[Hin|[]]]; [|discriminate].
    unfold inv in I'; destruct (game_over s2); [|contradiction].
    destruct I' as (_ & _ & _ & _ & [Wn|Wn]); rewrite show_winner_out, Wn in Hin; cbn in Hin;
      repeat (destruct Hin as [Hin|Hin]; [discriminate|]); contradiction.
Qed.

End Drawing.

(** ** Instances *)

Lemma screen_shows_board_witness :
  let sc := setup_screen ++ grid in
  reachable_io (fun _ => 0%Z) (fun _ => 0%Z) init_state sc
  /\ screen_ok (board_of init_state) sc /\ incl (figures (board_of init_state)) (since_fill sc).
Proof.
  cbv zeta; assert (R : reachable_io (fun _ => 0%Z) (fun _ => 0%Z) init_state (setup_screen ++ grid))
    by (apply reachable_io_init, draw_lines_appends).
  split; [exact R|apply (screen_shows_board (fun _ => 0%Z) (fun _ => 0%Z) _ _ R)].
Defined.

Lemma never_shows_you_win_witness :
  let sc := setup_screen ++ grid in
  reachable_io (fun _ => 0%Z) (fun _ => 0%Z) init_state sc
  /\ ~ In (Blit (Rendered font "You Win!" true WIN_COLOR) (0, 0)%Z) sc.
Proof.
  cbv zeta; assert (R : reachable_io (fun _ => 0%Z) (fun _ => 0%Z) init_state (setup_screen ++ grid))
    by (apply reachable_io_init, draw_lines_appends).
  split; [exact R|apply (never_shows_you_win (fun _ => 0%Z) (fun _ => 0%Z) _ _ R)].
Defined.

Lemma figures_in_cells_witness :
  let b := mkBoard 0 0 0 0 1 0 0 0 0 in
  let d := Circle CIRCLE_COLOR (300, 300)%Z CIRCLE_RADIUS LINE_WIDTH in
  In d (out (draw_figures b))
  /\ exists r c,
    ((is_circle d = true /\ get b r c = 1%Z) \/ (is_line d = true /\ get b r c = 2%Z))
    /\ forall x y, in_shape d (x, y) ->
         np_index (y / SQUARE_SIZE) = Some r /\ np_index (x / SQUARE_SIZE) = Some c.
Proof.
  cbv zeta; assert (H : In (Circle CIRCLE_COLOR (300, 300)%Z CIRCLE_RADIUS LINE_WIDTH)
                          (out (draw_figures (mkBoard 0 0 0 0 1 0 0 0 0)))) by (vm_compute; auto).
  split; [exact H|apply (figures_in_cells _ _ H)].
Defined.

Lemma message_names_outcome_witness :
  let s := mkState (mkBoard 1 1 2 1 2 0 2 0 0) 2 true (Some 2%Z) in
  reachable s /\ game_over s = true
  /\ exists pos rest,
    show_winner (fun _ => 0%Z) (fun _ => 0%Z) (winner s) [] =
      Some (tt, [] ++ Blit dark_overlay (0, 0)%Z
                   :: Blit (Rendered font (if check_win (board_of s) 2 then "AI Wins!" else "Draw!")
                              true WIN_COLOR) pos
                   :: rest)
    /\ (check_win (board_of s) 2 = false ->
        is_board_full (board_of s) = true /\ check_win (board_of s) 1 = false).
Proof.
  cbv zeta; split; [exact reachable_ai_win|split; [reflexivity|]].
  apply (message_names_outcome (fun _ => 0%Z) (fun _ => 0%Z)); [exact reachable_ai_win|reflexivity].
Defined.

Lemma texts_inside_window_witness :
  let t := Rendered font "AI Wins!" true WIN_COLOR in
  In (Blit t (220, 277)%Z) (out (show_winner (fun _ => 160%Z) (fun _ => 46%Z) (Some 2%Z)))
  /\ t <> dark_overlay /\ (0 <= 160 <= WIDTH)%Z /\ (0 <= 46 <= HEIGHT / 2 - 50)%Z
  /\ (0 <= 220 /\ 220 + 160 <= WIDTH /\ WIDTH <= 2 * 220 + 160 <= WIDTH + 1
      /\ 0 <= 277 /\ 277 + 46 <= HEIGHT)%Z.
Proof.
  cbv zeta.
  assert (H : In (Blit (Rendered font "AI Wins!" true WIN_COLOR) (220, 277)%Z)
                 (out (show_winner (fun _ => 160%Z) (fun _ => 46%Z) (Some 2%Z))))
    by (vm_compute; auto).
  assert (N : Rendered font "AI Wins!" true WIN_COLOR <> dark_overlay) by discriminate.
  assert (Bw : (0 <= 160 <= WIDTH)%Z) by (unfold WIDTH; lia).
  assert (Bh : (0 <= 46 <= HEIGHT / 2 - 50)%Z) by (unfold HEIGHT; vm_compute; split; discriminate).
  split; [exact H|split; [exact N|split; [exact Bw|split; [exact Bh|]]]].
  exact (texts_inside_window (fun _ => 160%Z) (fun _ => 46%Z) _ _ _ _ H N Bw Bh).
Defined.

Lemma overlay_accumulates_witness :
  let s := mkState zeros 1 true (Some 0%Z) in
  game_over s = true
  /\ exists l, frames_io (fun _ => 0%Z) (fun _ => 0%Z) s (repeat [] 3) [] = Some (Running s, [] ++ l)
    /\ overlays ([] ++ l) = (overlays [] + 3)%nat
    /\ (forall d, In d l -> ~ In d grid).
Proof.
  cbv zeta; split; [reflexivity|].
  apply (overlay_accumulates (fun _ => 0%Z) (fun _ => 0%Z)); reflexivity.
Defined.

Lemma grid_is_cell_boundaries_witness :
  (0 < 200 < fst (mode (fst setup)))%Z
  /\ (np_index ((200 - 1) / SQUARE_SIZE) <> np_index (200 / SQUARE_SIZE)
      <-> In (Line LINE_COLOR (200, 0) (200, snd (mode (fst setup))) LINE_WIDTH) (out draw_lines))%Z
  /\ (np_index ((200 - 1) / SQUARE_SIZE) <> np_index (200 / SQUARE_SIZE)
      <-> In (Line LINE_COLOR (0, 200) (fst (mode (fst setup)), 200) LINE_WIDTH) (out draw_lines))%Z.
Proof.
  assert (B : (0 < 200 < fst (mode (fst setup)))%Z) by (cbn; unfold WIDTH; lia).
  split; [exact B|exact (grid_is_cell_boundaries 200 B)].
Defined.

Lemma restart_redraws_opening_witness :
  let s := mkState (mkBoard 1 1 2 1 2 0 2 0 0) 2 true (Some 2%Z) in
  game_over s = true
  /\ exists sc',
    frame_io (fun _ => 0%Z) (fun _ => 0%Z) s [KEYDOWN K_r] [] = Some (Running init_state, sc')
    /\ since_fill sc' = since_fill (snd setup ++ out draw_lines ++ [Update])
    /\ frame_io (fun _ => 0%Z) (fun _ => 0%Z) init_state [] (snd setup ++ out draw_lines)
       = Some (Running init_state, snd setup ++ out draw_lines ++ [Update]).
Proof.
  cbv zeta; split; [reflexivity|].
  apply (restart_redraws_opening (fun _ => 0%Z) (fun _ => 0%Z)); reflexivity.
Defined.

End Presentation.
